(** * Verification of the corto exchange: model invoker, LLM re-ranker,
    fuzzy skill matcher and the recruitment workflow engine.

    Shallow embedding of
    - [common/llm.py]              : [get_llm], [invoke_structured_with_retry]
    - [exchange/services.py]       : [AgentClient.resume_best_match],
                                     [AgentClient.job_description_generate_schema],
                                     [AgentClient.interview_score]
    - [resume_mastermind/utils.py] : [fuzzy_skill_match]
    - [exchange/main.py]           : the job / job-candidate / interview endpoints.

    Model calls are an oracle indexed by the rotation counter of
    [_next_google_api_key]: the [n]-th constructed client answers [llm n]
    ([None] = the call raised, including a schema-validation failure). *)

From Stdlib Require Import List String Ascii ZArith QArith Bool Lia Lqa Sorted.
From stdpp Require Import base gmap.
Import ListNotations.
Open Scope Z_scope.

(** [length] is the list length throughout; string lengths are written
    [String.length]. *)
Abbreviation length := List.length.

(* ------------------------------------------------------------------ *)
(** ** common/llm.py : the resilient model invoker *)

Module Invoker.

(** [get_llm] followed by one structured [invoke]. [keys] is the pool read
    by [_get_google_api_keys]; [n] counts the clients constructed so far
    (each advances the key cycle). [get_llm] raises [ValueError] when no key
    is configured: the first construction is outside the [try], so that
    failure is not retried. Returns the outcome and the new counter. *)
Definition invoke_structured_with_retry {A : Type} (keys : list string)
    (llm : nat -> option A) (n : nat) : option A * nat :=
  match keys with
  | [] => (None, n)
  | _ :: _ =>
      match llm n with
      | Some r => (Some r, S n)
      | None => (llm (S n), S (S n))
      end
  end.

End Invoker.

(* ------------------------------------------------------------------ *)
(** ** exchange/services.py : [AgentClient.resume_best_match] *)

Module Ranker.

(** One element of [candidates_payload] built in [employer_publish_job]. *)
Record CandidatePayload := mkPayload {
  id : Z;
  full_name : option string;
  email : option string;
  skills : list string
}.

(** [RankedCandidate] of llm.py, and the [{profile_id, rank}] dicts. *)
Record RankedEntry := mkEntry { profile_id : Z; rank : Z }.

(** [RankingOutput.ranked] *)
Definition RankingOutput := list RankedEntry.

(** The returned dict [{"top_10": ..., "top_5": ...}]. *)
Record BestMatch := mkBest { top_10 : list RankedEntry; top_5 : list RankedEntry }.

(** [[f(i, c) for i, c in enumerate(xs)]] *)
Fixpoint enumerate_map {A B : Type} (f : nat -> A -> B) (i : nat) (xs : list A) : list B :=
  match xs with
  | [] => []
  | x :: xs' => f i x :: enumerate_map f (S i) xs'
  end.

Definition limit : nat := 5.

(** The deterministic fallback of the [except] branch. *)
Definition fallback (candidates_payload : list CandidatePayload) : list RankedEntry :=
  enumerate_map (fun i c => mkEntry (id c) (Z.of_nat i + 1)) 0
    (firstn limit candidates_payload).

(** [resume_best_match job_schema_str candidates_payload]; the job text and
    the JSON dump of the candidates only shape the prompt, which the oracle
    [llm] answers. Returns the dict and the new rotation counter. *)
Definition resume_best_match (keys : list string) (llm : nat -> option RankingOutput)
    (n : nat) (job_schema_str : string) (candidates_payload : list CandidatePayload)
    : BestMatch * nat :=
  match candidates_payload with
  | [] => (mkBest [] [], n)
  | _ :: _ =>
      let '(res, n') := Invoker.invoke_structured_with_retry keys llm n in
      match res with
      | Some ranked =>
          let top := map (fun r => mkEntry (profile_id r) (rank r)) (firstn limit ranked) in
          (mkBest top top, n')
      | None =>
          (mkBest (fallback candidates_payload) [], n')
      end
  end.

(** What [employer_publish_job] keeps of the result:
    [top.get("top_5") or top.get("top_10") or []], cut to 5 entries. *)
Definition publish_selection (b : BestMatch) : list RankedEntry :=
  firstn 5 (match top_5 b with [] => top_10 b | l => l end).

End Ranker.

(* ------------------------------------------------------------------ *)
(** ** Python string primitives used by the code

    A Rocq [string] stands for the Python [str] whose code points are its
    bytes (Latin-1, code points 0..255); the character classes below are
    Python's on that range. *)

Module PyStr.

(** Python's [str.isspace] on code points 0..255: \t \n \v \f \r (9..13),
    the separators \x1c..\x1f (28..31), space (32), NEL (133) and
    no-break space (160). *)
Definition is_space (c : ascii) : bool :=
  let n := nat_of_ascii c in
  ((9 <=? n)%nat && (n <=? 13)%nat) || ((28 <=? n)%nat && (n <=? 32)%nat)
  || (n =? 133)%nat || (n =? 160)%nat.

(** [str.lower] on code points 0..255: A..Z (65..90) and the Latin-1
    capitals 192..214 and 216..222 move up by 32; every other code point
    is unchanged (and always gives one character). *)
Definition lower_char (c : ascii) : ascii :=
  let n := nat_of_ascii c in
  if ((65 <=? n)%nat && (n <=? 90)%nat) || ((192 <=? n)%nat && (n <=? 214)%nat)
     || ((216 <=? n)%nat && (n <=? 222)%nat)
  then ascii_of_nat (n + 32) else c.

Fixpoint lower (s : string) : string :=
  match s with
  | EmptyString => EmptyString
  | String c s' => String (lower_char c) (lower s')
  end.

(** [s.replace(a, b)] for a one-character [a] and a one-character [b]. *)
Fixpoint replace_char (a b : ascii) (s : string) : string :=
  match s with
  | EmptyString => EmptyString
  | String c s' =>
      String (if Ascii.eqb c a then b else c) (replace_char a b s')
  end.

(** [s.replace(a, "")] for a one-character [a]. *)
Fixpoint remove_char (a : ascii) (s : string) : string :=
  match s with
  | EmptyString => EmptyString
  | String c s' => if Ascii.eqb c a then remove_char a s' else String c (remove_char a s')
  end.

Fixpoint lstrip (s : string) : string :=
  match s with
  | EmptyString => EmptyString
  | String c s' => if is_space c then lstrip s' else s
  end.

Fixpoint rev_str (s : string) (acc : string) : string :=
  match s with
  | EmptyString => acc
  | String c s' => rev_str s' (String c acc)
  end.

(** [s.strip()] *)
Definition strip (s : string) : string :=
  rev_str (lstrip (rev_str (lstrip s) EmptyString)) EmptyString.

(** [s.split()]: maximal runs of characters that are not [is_space]. [cur] holds the
    current word reversed. *)
Fixpoint split_ws_aux (s : string) (cur : string) : list string :=
  match s with
  | EmptyString =>
      match cur with EmptyString => [] | _ => [rev_str cur EmptyString] end
  | String c s' =>
      if is_space c then
        match cur with
        | EmptyString => split_ws_aux s' EmptyString
        | _ => rev_str cur EmptyString :: split_ws_aux s' EmptyString
        end
      else split_ws_aux s' (String c cur)
  end.

Definition split_ws (s : string) : list string := split_ws_aux s EmptyString.

(** [s.split(sep)] for a one-character separator. *)
Fixpoint split_on_aux (sep : ascii) (s : string) (cur : string) : list string :=
  match s with
  | EmptyString => [rev_str cur EmptyString]
  | String c s' =>
      if Ascii.eqb c sep then rev_str cur EmptyString :: split_on_aux sep s' EmptyString
      else split_on_aux sep s' (String c cur)
  end.

Definition split_on (sep : ascii) (s : string) : list string :=
  split_on_aux sep s EmptyString.

(** Truthiness of a string. *)
Definition truthy (s : string) : bool :=
  match s with EmptyString => false | _ => true end.

(** [s or None] *)
Definition or_none (s : string) : option string :=
  if truthy s then Some s else None.

End PyStr.

(* ------------------------------------------------------------------ *)
(** ** resume_mastermind/utils.py : [fuzzy_skill_match]

    [rapidfuzz.fuzz.token_set_ratio] and [rapidfuzz.process.extractOne]
    (rapidfuzz 3, no processor) are written out after rapidfuzz's reference
    implementation; scores are floats in the code and rationals here. *)

Module Fuzzy.
Import PyStr.
Local Open Scope Q_scope.

Definition is_nil {A : Type} (l : list A) : bool :=
  match l with [] => true | _ => false end.

Definition mem (x : string) (l : list string) : bool :=
  existsb (String.eqb x) l.

(** [set(xs)], keeping first occurrences. *)
Fixpoint dedup (xs : list string) : list string :=
  match xs with
  | [] => []
  | x :: xs' => if mem x xs' then dedup xs' else x :: dedup xs'
  end.

Fixpoint insert_sorted (x : string) (l : list string) : list string :=
  match l with
  | [] => [x]
  | y :: l' => if String.leb x y then x :: l else y :: insert_sorted x l'
  end.

(** [sorted(xs)] (codepoint order). *)
Definition sorted (xs : list string) : list string := fold_right insert_sorted [] xs.

(** Length of the longest common subsequence. *)
Fixpoint lcs (a b : list ascii) : nat :=
  match a with
  | [] => 0%nat
  | x :: a' =>
      (fix lcs_b (b : list ascii) : nat :=
         match b with
         | [] => 0%nat
         | y :: b' =>
             if Ascii.eqb x y then S (lcs a' b')
             else Nat.max (lcs a' b) (lcs_b b')
         end) b
  end.

(** [Indel.distance]: insertions and deletions only. *)
Definition indel_distance (s1 s2 : string) : nat :=
  (String.length s1 + String.length s2
   - 2 * lcs (list_ascii_of_string s1) (list_ascii_of_string s2))%nat.

Definition qnat (n : nat) : Q := inject_Z (Z.of_nat n).

(** [_norm_distance(dist, lensum, 0)] *)
Definition norm_distance (dist lensum : nat) : Q :=
  if (lensum =? 0)%nat then 100 else 100 - 100 * qnat dist / qnat lensum.

Definition b2n (b : bool) : nat := if b then 1%nat else 0%nat.

Definition Qmax (a b : Q) : Q := if Qle_bool a b then b else a.

(** [fuzz.token_set_ratio(s1, s2)] with [score_cutoff = 0]. *)
Definition token_set_ratio (s1 s2 : string) : Q :=
  let tokens_a := dedup (split_ws s1) in
  let tokens_b := dedup (split_ws s2) in
  match tokens_a, tokens_b with
  | [], _ | _, [] => 0
  | _, _ =>
    let intersect := List.filter (fun t => mem t tokens_b) tokens_a in
    let diff_ab := List.filter (fun t => negb (mem t tokens_b)) tokens_a in
    let diff_ba := List.filter (fun t => negb (mem t tokens_a)) tokens_b in
    if (negb (is_nil intersect)) && (is_nil diff_ab || is_nil diff_ba) then 100
    else
      let diff_ab_joined := String.concat " " (sorted diff_ab) in
      let diff_ba_joined := String.concat " " (sorted diff_ba) in
      let ab_len := String.length diff_ab_joined in
      let ba_len := String.length diff_ba_joined in
      let sect_len := String.length (String.concat " " (sorted intersect)) in
      let sect_ab_len := (sect_len + b2n (negb (sect_len =? 0)) + ab_len)%nat in
      let sect_ba_len := (sect_len + b2n (negb (sect_len =? 0)) + ba_len)%nat in
      let dist := indel_distance diff_ab_joined diff_ba_joined in
      let result := norm_distance dist (sect_ab_len + sect_ba_len) in
      if (sect_len =? 0)%nat then result
      else
        let sect_ab_dist := (b2n (negb (sect_len =? 0)) + ab_len)%nat in
        let sect_ab_ratio := norm_distance sect_ab_dist (sect_len + sect_ab_len) in
        let sect_ba_dist := (b2n (negb (sect_len =? 0)) + ba_len)%nat in
        let sect_ba_ratio := norm_distance sect_ba_dist (sect_len + sect_ba_len) in
        Qmax (Qmax result sect_ab_ratio) sect_ba_ratio
  end.

(** Score of [process.extractOne(query, choices, scorer=...)]: the loop
    keeps the first choice with the highest score (a later choice replaces
    the current result only when strictly better). [None] when there is no
    choice. The score cutoff that rapidfuzz raises along the loop only zeroes
    scores below the current best, which never replace it, so it is left out. *)
Fixpoint extract_one_loop (scorer : string -> string -> Q) (query : string)
    (choices : list string) (result : option Q) : option Q :=
  match choices with
  | [] => result
  | c :: cs =>
      let score := scorer query c in
      let result' :=
        match result with
        | None => Some score
        | Some best => if negb (Qle_bool score best) then Some score else result
        end in
      extract_one_loop scorer query cs result'
  end.

Definition extract_one_score (scorer : string -> string -> Q) (query : string)
    (choices : list string) : option Q :=
  extract_one_loop scorer query choices None.

Definition normalize (skill : string) : string :=
  strip (remove_char "."%char (replace_char "-"%char " "%char (lower skill))).

Definition sumQ (l : list Q) : Q := fold_right Qplus 0 l.

Definition fuzzy_skill_match (list1 list2 : list string) : Q :=
  match list1, list2 with
  | [], _ | _, [] => 0
  | _, _ =>
    let list1_norm := map normalize list1 in
    let list2_norm := map normalize list2 in
    let best_scores :=
      map (fun skill =>
             match extract_one_score token_set_ratio skill list2_norm with
             | Some score => score
             | None => 0 (* unreachable: list2_norm is non-empty *)
             end) list1_norm in
    sumQ best_scores / qnat (List.length best_scores)
  end.

End Fuzzy.

(* ================================================================== *)
(** * Properties *)

Module RankerFacts.
Import Ranker.

Lemma enumerate_map_nth_error {A B : Type} (f : nat -> A -> B) (xs : list A) :
  forall k i, nth_error (enumerate_map f k xs) i = option_map (f (k + i)%nat) (nth_error xs i).
Proof.
  induction xs as [|x xs IH]; intros k i; destruct i; simpl; auto.
  - now rewrite Nat.add_0_r.
  - rewrite IH. now rewrite Nat.add_succ_r.
Qed.

Lemma enumerate_map_length {A B : Type} (f : nat -> A -> B) (xs : list A) :
  forall k, length (enumerate_map f k xs) = length xs.
Proof. induction xs; simpl; auto. Qed.

Lemma fallback_ids (cands : list CandidatePayload) :
  Forall (fun e => In (profile_id e) (map id cands)) (fallback cands).
Proof.
  unfold fallback. generalize 0%nat.
  assert (Hsub : forall x, In x (firstn limit cands) -> In x cands)
    by (intros x Hx; rewrite <- (firstn_skipn limit cands); apply in_or_app; now left).
  revert Hsub. generalize (firstn limit cands) as xs.
  induction xs as [|x xs IH]; intros Hsub k; simpl; constructor.
  - simpl. apply in_map. apply Hsub. now left.
  - apply IH. intros y Hy. apply Hsub. now right.
Qed.

End RankerFacts.

(** C9: [resume_best_match] on an empty pool returns
    [{"top_10": [], "top_5": []}] for every model behaviour and leaves the
    model-client counter untouched: no model invocation happens. *)
Theorem resume_best_match_empty_no_call :
  forall keys (llm : nat -> option Ranker.RankingOutput) n job_schema_str,
    Ranker.resume_best_match keys llm n job_schema_str [] = (Ranker.mkBest [] [], n).
Proof. reflexivity. Qed.

(** C1: when both model attempts fail (the first call and the Invoker's
    retry), a non-empty candidate list yields the deterministic fallback:
    entry [i] is [{profile_id: input[i].id, rank: i+1}] for
    [i < min 5 (len input)]. The dict carries it under [top_10] with an
    empty [top_5], and [employer_publish_job] (which reads
    [top_5 or top_10]) consumes exactly that list. *)
Theorem resume_best_match_fallback :
  forall keys (llm : nat -> option Ranker.RankingOutput) n job_schema_str c cs,
    llm n = None -> llm (S n) = None ->
    let b := fst (Ranker.resume_best_match keys llm n job_schema_str (c :: cs)) in
    Ranker.top_10 b = Ranker.fallback (c :: cs) /\
    Ranker.top_5 b = [] /\
    Ranker.publish_selection b = Ranker.top_10 b /\
    length (Ranker.top_10 b) = Nat.min 5 (length (c :: cs)) /\
    (forall i x, (i < 5)%nat -> nth_error (c :: cs) i = Some x ->
       nth_error (Ranker.top_10 b) i
       = Some (Ranker.mkEntry (Ranker.id x) (Z.of_nat i + 1))).
Proof.
  intros keys llm n job c cs H1 H2 b.
  assert (Hb : b = Ranker.mkBest (Ranker.fallback (c :: cs)) []).
  { unfold b, Ranker.resume_best_match, Invoker.invoke_structured_with_retry.
    destruct keys; [reflexivity|]. rewrite H1, H2. reflexivity. }
  rewrite Hb; cbn [Ranker.top_10 Ranker.top_5].
  assert (Hlen : length (Ranker.fallback (c :: cs)) = Nat.min 5 (length (c :: cs))).
  { unfold Ranker.fallback. rewrite RankerFacts.enumerate_map_length, length_firstn.
    unfold Ranker.limit. lia. }
  repeat split; auto.
  - unfold Ranker.publish_selection. cbn [Ranker.top_10 Ranker.top_5].
    rewrite firstn_all2; [reflexivity|]. rewrite Hlen. apply Nat.le_min_l.
  - intros i x Hi Hx. unfold Ranker.fallback.
    rewrite RankerFacts.enumerate_map_nth_error, nth_error_firstn.
    unfold Ranker.limit. destruct (Nat.ltb_spec i 5); [|lia].
    rewrite Hx. reflexivity.
Qed.

Lemma resume_best_match_fallback_witness :
  let cands := [Ranker.mkPayload 7 None None []; Ranker.mkPayload 3 None None [];
                Ranker.mkPayload 9 None None []] in
  (fun _ : nat => @None Ranker.RankingOutput) 0%nat = None /\
  (fun _ : nat => @None Ranker.RankingOutput) 1%nat = None /\
  Ranker.top_10 (fst (Ranker.resume_best_match ["key"%string] (fun _ => None) 0 "{}"%string cands))
  = Ranker.fallback cands.
Proof.
  split; [reflexivity|]. split; [reflexivity|].
  exact (proj1 (resume_best_match_fallback ["key"%string] (fun _ => None) 0 "{}"%string
                  (Ranker.mkPayload 7 None None [])
                  [Ranker.mkPayload 3 None None []; Ranker.mkPayload 9 None None []]
                  eq_refl eq_refl)).
Defined.

(** C4 (counterexample): the model's ranking is passed through without
    checking its ids: with one candidate of id 1 and a model answer naming
    profile 99, [top_5] contains profile 99, which is not an input id. *)
Lemma resume_best_match_unknown_id_passes :
  let cands := [Ranker.mkPayload 1 None None []] in
  let b := fst (Ranker.resume_best_match ["key"%string] (fun _ => Some [Ranker.mkEntry 99 1]) 0 "{}"%string cands) in
  In (Ranker.mkEntry 99 1) (Ranker.top_5 b) /\ ~ In 99 (map Ranker.id cands).
Proof.
  simpl. split; [now left|]. intros [H|H]; [discriminate|contradiction].
Qed.

(** C4 (amended): the re-ranker's ranking has at most 5 entries in both
    fields. When the model answers [ranked], both fields are the first 5
    model entries, unchecked against the input ids; when the model call
    fails, [top_5] is empty and every id of [top_10] is an input id. *)
Theorem resume_best_match_shape :
  forall keys (llm : nat -> option Ranker.RankingOutput) n job_schema_str cands,
    let '(res, _) := Invoker.invoke_structured_with_retry keys llm n in
    let b := fst (Ranker.resume_best_match keys llm n job_schema_str cands) in
    (length (Ranker.top_5 b) <= 5)%nat /\ (length (Ranker.top_10 b) <= 5)%nat /\
    match cands, res with
    | [], _ => Ranker.top_5 b = [] /\ Ranker.top_10 b = []
    | _ :: _, Some ranked =>
        Ranker.top_5 b = firstn 5 ranked /\ Ranker.top_10 b = firstn 5 ranked
    | _ :: _, None =>
        Ranker.top_5 b = [] /\
        Forall (fun e => In (Ranker.profile_id e) (map Ranker.id cands)) (Ranker.top_10 b)
    end.
Proof.
  intros keys llm n job cands.
  destruct (Invoker.invoke_structured_with_retry keys llm n) as [res n'] eqn:Hinv.
  destruct cands as [|c cs].
  { cbn. repeat split; lia. }
  unfold Ranker.resume_best_match. rewrite Hinv.
  destruct res as [ranked|]; cbn beta iota zeta delta [fst].
  - assert (Hm : map (fun r => Ranker.mkEntry (Ranker.profile_id r) (Ranker.rank r))
                   (firstn Ranker.limit ranked) = firstn 5 ranked).
    { unfold Ranker.limit. generalize (firstn 5 ranked). intro l.
      induction l as [|[p r] l IH]; cbn; [|rewrite IH]; reflexivity. }
    rewrite Hm. cbn [Ranker.top_5 Ranker.top_10]. rewrite length_firstn.
    repeat split; apply Nat.le_min_l.
  - cbn [Ranker.top_5 Ranker.top_10]. unfold Ranker.fallback at 1.
    rewrite RankerFacts.enumerate_map_length, length_firstn. unfold Ranker.limit.
    repeat split; try apply Nat.le_min_l; cbn; try lia.
    apply (RankerFacts.fallback_ids (c :: cs)).
Qed.

Module FuzzyFacts.
Import Fuzzy.
Local Open Scope Q_scope.

Lemma qnat_le (a b : nat) : (a <= b)%nat -> qnat a <= qnat b.
Proof. intro H. unfold qnat. rewrite <- Zle_Qle. lia. Qed.

Lemma norm_distance_bounds (d l : nat) :
  (d <= l)%nat -> 0 <= norm_distance d l <= 100.
Proof.
  intro Hdl. unfold norm_distance.
  destruct (Nat.eqb_spec l 0) as [Hl|Hl]; [split; lra|].
  assert (Hpos : 0 < qnat l).
  { unfold qnat. change 0 with (inject_Z 0). rewrite <- Zlt_Qlt. lia. }
  assert (Hd0 : 0 <= qnat d) by (apply (qnat_le 0); lia).
  assert (Hdl' : qnat d <= qnat l) by (apply qnat_le; exact Hdl).
  assert (H1 : 0 <= 100 * qnat d / qnat l).
  { apply Qle_shift_div_l; [exact Hpos|]. lra. }
  assert (H2 : 100 * qnat d / qnat l <= 100).
  { apply Qle_shift_div_r; [exact Hpos|]. lra. }
  split; lra.
Qed.

Lemma Qmax_bounds (a b : Q) :
  0 <= a <= 100 -> 0 <= b <= 100 -> 0 <= Qmax a b <= 100.
Proof. intros Ha Hb. unfold Qmax. destruct (Qle_bool a b); assumption. Qed.

(** Every [token_set_ratio] score lies in [0, 100]. *)
Lemma token_set_ratio_bounds (s1 s2 : string) : 0 <= token_set_ratio s1 s2 <= 100.
Proof.
  unfold token_set_ratio.
  destruct (dedup (PyStr.split_ws s1)) as [|a la]; [split; lra|].
  destruct (dedup (PyStr.split_ws s2)) as [|b lb]; [split; lra|].
  cbv zeta.
  destruct (_ && _); [split; lra|].
  destruct (_ =? 0)%nat.
  - apply norm_distance_bounds. unfold indel_distance. lia.
  - repeat apply Qmax_bounds; apply norm_distance_bounds;
      try (unfold indel_distance); lia.
Qed.

(** The [extractOne] loop returns the maximum of the scores it has seen,
    and that maximum is one of them. *)
Lemma extract_one_loop_max (sc : string -> string -> Q) (q : string) (cs : list string) :
  forall r, exists b,
    extract_one_loop sc q cs (Some r) = Some b /\ r <= b /\
    Forall (fun c => sc q c <= b) cs /\ (b = r \/ Exists (fun c => b = sc q c) cs).
Proof.
  induction cs as [|c cs IH]; intro r; simpl.
  - exists r. repeat split; auto using Qle_refl.
  - destruct (Qle_bool (sc q c) r) eqn:Hle; simpl.
    + apply Qle_bool_iff in Hle.
      destruct (IH r) as (b & Hb & Hrb & Hall & Hwho).
      exists b. repeat split; auto.
      * constructor; [eapply Qle_trans; eauto | exact Hall].
      * destruct Hwho as [->|Hex]; [now left | right; now right].
    + assert (Hlt : r < sc q c).
      { apply Qnot_le_lt. intro H. apply Qle_bool_iff in H. congruence. }
      destruct (IH (sc q c)) as (b & Hb & Hsb & Hall & Hwho).
      exists b. repeat split; auto.
      * apply Qlt_le_weak. eapply Qlt_le_trans; eauto.
      * right. destruct Hwho as [->|Hex]; [now left | now right].
Qed.

Lemma extract_one_score_max (sc : string -> string -> Q) (q c : string) (cs : list string) :
  exists b,
    extract_one_score sc q (c :: cs) = Some b /\
    Forall (fun x => sc q x <= b) (c :: cs) /\ Exists (fun x => b = sc q x) (c :: cs).
Proof.
  unfold extract_one_score. simpl.
  destruct (extract_one_loop_max sc q cs (sc q c)) as (b & Hb & Hcb & Hall & Hwho).
  exists b. repeat split; auto.
  destruct Hwho as [->|Hex]; [now left | now right].
Qed.

End FuzzyFacts.

(** C7: [fuzzy_skill_match] is [0.0] as soon as one list is empty;
    otherwise it is the arithmetic mean of one best score per skill of
    [list1], where the best score of [s] is the maximum over the skills [c]
    of [list2] of [token_set_ratio (normalize s) (normalize c)] (attained by
    some [c]) and lies in [0, 100]; [normalize] lower-cases, maps [-] to a
    space, drops [.] and strips. On [["Python"]] and [["python "]] the
    result is [100]. *)
Theorem fuzzy_skill_match_spec :
  (forall l, Fuzzy.fuzzy_skill_match [] l = 0%Q) /\
  (forall l, Fuzzy.fuzzy_skill_match l [] = 0%Q) /\
  (forall s1 l1 s2 l2,
     exists best : list Q,
       Forall2 (fun s b =>
          (0 <= b <= 100)%Q /\
          Forall (fun c =>
            (Fuzzy.token_set_ratio (Fuzzy.normalize s) (Fuzzy.normalize c) <= b)%Q) (s2 :: l2) /\
          Exists (fun c =>
            b = Fuzzy.token_set_ratio (Fuzzy.normalize s) (Fuzzy.normalize c)) (s2 :: l2))
         (s1 :: l1) best /\
       Fuzzy.fuzzy_skill_match (s1 :: l1) (s2 :: l2)
       = (Fuzzy.sumQ best / Fuzzy.qnat (length (s1 :: l1)))%Q) /\
  (Fuzzy.fuzzy_skill_match ["Python"%string] ["python "%string] == 100)%Q.
Proof.
  split; [reflexivity|].
  split; [intros [|s l]; reflexivity|].
  split; [|vm_compute; reflexivity].
  intros s1 l1 s2 l2.
  set (f := fun skill =>
             match Fuzzy.extract_one_score Fuzzy.token_set_ratio skill
                     (map Fuzzy.normalize (s2 :: l2)) with
             | Some score => score
             | None => 0%Q
             end).
  exists (map f (map Fuzzy.normalize (s1 :: l1))).
  split.
  - generalize (s1 :: l1) as l. induction l as [|s l IH]; simpl; constructor; [|exact IH].
    unfold f. cbn [map].
    destruct (FuzzyFacts.extract_one_score_max Fuzzy.token_set_ratio (Fuzzy.normalize s)
                (Fuzzy.normalize s2) (map Fuzzy.normalize l2)) as (b & Hb & Hall & Hex).
    rewrite Hb.
    change (Fuzzy.normalize s2 :: map Fuzzy.normalize l2) with (map Fuzzy.normalize (s2 :: l2)) in Hall, Hex.
    rewrite Forall_map in Hall. rewrite Exists_map in Hex.
    split; [|split; assumption].
    apply Exists_exists in Hex. destruct Hex as (c & _ & ->).
    apply FuzzyFacts.token_set_ratio_bounds.
  - unfold Fuzzy.fuzzy_skill_match. cbv beta iota zeta.
    rewrite !length_map. reflexivity.
Qed.

(* ------------------------------------------------------------------ *)
(** ** exchange/main.py : the recruitment workflow engine

    The relational store is four tables keyed by primary key (stdpp
    [gmap]). A request runs in one [get_session()] session: what it has not
    committed when it raises is rolled back on [session.close()], so an
    endpoint either commits a new store or fails with the store unchanged.
    E-mail and background video tasks leave no trace in the store. *)

Module Workflow.
Import PyStr.

(** JSON values of the [description_schema] column. *)
#[warnings="-register-all"]
Inductive json :=
| JNull | JBool (b : bool) | JNum (z : Z) | JStr (s : string)
| JArr (l : list json) | JObj (kvs : list (string * json)).

(** Python truthiness of a decoded JSON value. *)
Definition json_truthy (j : json) : bool :=
  match j with
  | JNull => false
  | JBool b => b
  | JNum z => negb (z =? 0)
  | JStr s => truthy s
  | JArr l => match l with [] => false | _ => true end
  | JObj kvs => match kvs with [] => false | _ => true end
  end.

Definition opt_truthy {A : Type} (t : A -> bool) (o : option A) : bool :=
  match o with None => false | Some a => t a end.

(** [d.get(k)] on a dict. *)
Definition json_get (k : string) (j : json) : option json :=
  match j with
  | JObj kvs => option_map snd (List.find (fun kv => String.eqb (fst kv) k) kvs)
  | _ => None
  end.

Inductive Status := Draft | Published | Closed.
Inductive Decision := Interested | Rejected.

(** Rows carry no [id] field: a row's primary key is its key in the table. *)
Module Job.
Record t := mk {
  employer_id : Z; title : string; description_md : option string;
  description_schema : option json; status : Status; created_at : Z }.
Definition with_schema (j : t) (schema : option json) (md : option string) : t :=
  mk (employer_id j) (title j) md schema (status j) (created_at j).
Definition with_status (j : t) (s : Status) : t :=
  mk (employer_id j) (title j) (description_md j) (description_schema j) s (created_at j).
End Job.

Module CandidateProfile.
Record t := mk {
  user_id : Z; full_name : option string; email : option string;
  summary : option string; skills : list string }.
End CandidateProfile.

Module JobCandidate.
Record t := mk {
  job_id : Z; candidate_profile_id : Z; rank : Z; invited_at : Z;
  interview_completed_at : option Z; score : option Q;
  candidate_decision : option Decision; company_decision : option string;
  selected_top_3 : bool }.
Definition with_decision (x : t) (d : Decision) : t :=
  mk (job_id x) (candidate_profile_id x) (rank x) (invited_at x)
     (interview_completed_at x) (score x) (Some d) (company_decision x) (selected_top_3 x).
Definition with_completion (x : t) (sc : option Q) (at_ : Z) : t :=
  mk (job_id x) (candidate_profile_id x) (rank x) (invited_at x)
     (Some at_) sc (candidate_decision x) (company_decision x) (selected_top_3 x).
Definition with_selected (x : t) (b : bool) : t :=
  mk (job_id x) (candidate_profile_id x) (rank x) (invited_at x)
     (interview_completed_at x) (score x) (candidate_decision x) (company_decision x) b.
End JobCandidate.

Module InterviewSession.
Record t := mk {
  job_candidate_id : Z; interview_link_token : string;
  questions : option (list string); started_at : option Z; ended_at : option Z;
  transcript : option string; score : option Q; recording_url : option string }.
Definition with_questions (x : t) (qs : list string) : t :=
  mk (job_candidate_id x) (interview_link_token x) (Some qs) (started_at x)
     (ended_at x) (transcript x) (score x) (recording_url x).
Definition with_started_at (x : t) (at_ : Z) : t :=
  mk (job_candidate_id x) (interview_link_token x) (questions x) (Some at_)
     (ended_at x) (transcript x) (score x) (recording_url x).
Definition with_completion (x : t) (tr : option string) (ended : Z) (sc : option Q) : t :=
  mk (job_candidate_id x) (interview_link_token x) (questions x) (started_at x)
     (Some ended) tr sc (recording_url x).
End InterviewSession.

Record Store := mkStore {
  jobs : gmap Z Job.t;
  candidate_profiles : gmap Z CandidateProfile.t;
  job_candidates : gmap Z JobCandidate.t;
  interview_sessions : gmap Z InterviewSession.t }.

Definition with_jobs (st : Store) (m : gmap Z Job.t) : Store :=
  mkStore m (candidate_profiles st) (job_candidates st) (interview_sessions st).
Definition with_job_candidates (st : Store) (m : gmap Z JobCandidate.t) : Store :=
  mkStore (jobs st) (candidate_profiles st) m (interview_sessions st).
Definition with_sessions (st : Store) (m : gmap Z InterviewSession.t) : Store :=
  mkStore (jobs st) (candidate_profiles st) (job_candidates st) m.

(** Errors a request can end with. *)
Inductive Error :=
| HTTPException (status_code : Z) (detail : string)
| TypeError                 (* [k in None] *)
| MultipleResultsFound      (* [scalar_one_or_none] on several rows *)
| IntegrityError.           (* a [unique=True] column would repeat *)

Inductive Res (A : Type) : Type := Ok (a : A) | Err (e : Error).
Arguments Ok {A} a.
Arguments Err {A} e.

(** What an endpoint leaves behind: the committed store and its response
    or error. *)
Definition Endpoint (A : Type) : Type := (Store * Res A)%type.

(** Run a step that may raise before anything is committed: on an error the
    store is left as it was. *)
Definition guard {A B : Type} (st : Store) (m : Res A) (k : A -> Endpoint B) : Endpoint B :=
  match m with Ok a => k a | Err e => (st, Err e) end.

(** Rows of a table with their primary keys, in primary-key order. *)
Fixpoint insert_by_key {A : Type} (x : Z * A) (l : list (Z * A)) : list (Z * A) :=
  match l with
  | [] => [x]
  | y :: l' => if (fst x <=? fst y)%Z then x :: l else y :: insert_by_key x l'
  end.

Definition rows {A : Type} (m : gmap Z A) : list (Z * A) :=
  fold_right insert_by_key [] (map_to_list m).

(** [select(T).where(P)], each row with its primary key. *)
Definition select {A : Type} (p : Z -> A -> bool) (m : gmap Z A) : list (Z * A) :=
  List.filter (fun kv => p (fst kv) (snd kv)) (rows m).

(** [.scalar_one_or_none()] *)
Definition one_or_none {A : Type} (l : list A) : Res (option A) :=
  match l with
  | [] => Ok None
  | [x] => Ok (Some x)
  | _ => Err MultipleResultsFound
  end.

(** The primary key SQLite assigns to a new row: one above the largest. *)
Definition next_id {A : Type} (m : gmap Z A) : Z :=
  map_fold (fun k _ acc => Z.max k acc) 0%Z m + 1.

Definition not_found (detail : string) : Error := HTTPException 404 detail.
Definition bad_request (detail : string) : Error := HTTPException 400 detail.

(** [InterviewSession] rows whose token is [token.strip()]. *)
Definition sessions_with_token (st : Store) (token : string) : list (Z * InterviewSession.t) :=
  select (fun _ inv => String.eqb (InterviewSession.interview_link_token inv) (strip token))
    (interview_sessions st).

Definition find_job (st : Store) (job_id user_id : Z) : option Job.t :=
  match jobs st !! job_id with
  | Some j => if Job.employer_id j =? user_id then Some j else None
  | None => None
  end.

(** [_parse_questions_from_agent]; [is_digit] is Python's [str.isdigit]
    on code points 0..255: 0..9 (48..57) and the superscripts two, three
    and one (178, 179, 185). *)
Definition is_digit (c : ascii) : bool :=
  let n := nat_of_ascii c in
  ((48 <=? n)%nat && (n <=? 57)%nat) || (n =? 178)%nat || (n =? 179)%nat || (n =? 185)%nat.

Definition starts_digit_or_dash (s : string) : bool :=
  match s with
  | String c _ => is_digit c || Ascii.eqb c "-"%char
  | EmptyString => false
  end.

Definition parse_questions_from_agent (questions_text : option string) : list string :=
  let t := match questions_text with Some t => t | None => EmptyString end in
  if negb (truthy (strip t)) then []
  else
    let lines := split_on "010"%char (strip t) in
    let questions :=
      List.map strip
        (List.filter (fun line => truthy (strip line) && starts_digit_or_dash (strip line)) lines) in
    let questions :=
      match questions with
      | [] => firstn 10 (List.map strip (List.filter (fun q => truthy (strip q)) lines))
      | _ => questions
      end in
    firstn 10 questions.

(** [interview_start] *)
Definition interview_start (st : Store) (token : string) (now : Z) : Endpoint unit :=
  guard st (one_or_none (sessions_with_token st token)) (fun found =>
  match found with
  | None => (st, Err (not_found "Invalid or expired interview link."))
  | Some (ik, inv) =>
      match InterviewSession.started_at inv with
      | Some _ => (st, Ok tt)
      | None =>
          (with_sessions st (<[ik := InterviewSession.with_started_at inv now]> (interview_sessions st)),
           Ok tt)
      end
  end).

(** [candidate_respond_to_interview]. [questions_text] is what
    [interview_prepare_questions] returns (it maps every failure to [""]).
    The decision is committed before the question preparation, so a later
    failure leaves it stored. *)
Definition candidate_respond_to_interview (st : Store) (job_candidate_id user_id : Z)
    (interested : bool) (questions_text : string) : Endpoint unit :=
  guard st (one_or_none (select (fun _ p => CandidateProfile.user_id p =? user_id)
                           (candidate_profiles st))) (fun profile =>
  match profile with
  | None => (st, Err (not_found "Profile not found"))
  | Some (pk, _) =>
  guard st (one_or_none (select (fun k x => (k =? job_candidate_id)
                                            && (JobCandidate.candidate_profile_id x =? pk))
                           (job_candidates st))) (fun found =>
  match found with
  | None => (st, Err (not_found "Interview not found"))
  | Some (jck, jc) =>
  match JobCandidate.candidate_decision jc with
  | Some _ => (st, Err (bad_request "Already responded to this interview"))
  | None =>
    let jc1 := JobCandidate.with_decision jc (if interested then Interested else Rejected) in
    let st1 := with_job_candidates st (<[jck := jc1]> (job_candidates st)) in
    if interested then
      match one_or_none (select (fun _ inv => InterviewSession.job_candidate_id inv =? jck)
                           (interview_sessions st1)) with
      | Err e => (st1, Err e)
      | Ok inv_o =>
        match jobs st1 !! JobCandidate.job_id jc1, inv_o,
              candidate_profiles st1 !! JobCandidate.candidate_profile_id jc1 with
        | Some _, Some (ik, inv), Some _ =>
            let questions := parse_questions_from_agent (Some questions_text) in
            match questions with
            | [] => (st1, Ok tt)
            | _ => (with_sessions st1 (<[ik := InterviewSession.with_questions inv questions]>
                                         (interview_sessions st1)), Ok tt)
            end
        | _, _, _ => (st1, Ok tt)
        end
      end
    else (st1, Ok tt)
  end
  end)
  end).

(** [AgentClient.interview_score]: the validated score, or nothing when the
    structured call fails (the method then returns [{}]). *)
Definition interview_score (keys : list string) (llm : nat -> option Q) (n : nat) : option Q :=
  fst (Invoker.invoke_structured_with_retry keys llm n).

(** [interview_complete]; [ended_now] and [completed_now] are the two
    [datetime.now] readings. *)
Definition interview_complete (st : Store) (token transcript : string)
    (keys : list string) (llm : nat -> option Q) (n : nat) (ended_now completed_now : Z)
    : Endpoint (option Q) :=
  guard st (one_or_none (sessions_with_token st token)) (fun found =>
  match found with
  | None => (st, Err (not_found "Invalid or expired interview link."))
  | Some (ik, inv) =>
  match job_candidates st !! InterviewSession.job_candidate_id inv with
  | None => (st, Err (bad_request "Interview already completed."))
  | Some jc =>
  match JobCandidate.interview_completed_at jc with
  | Some _ => (st, Err (bad_request "Interview already completed."))
  | None =>
  match jobs st !! JobCandidate.job_id jc,
        candidate_profiles st !! JobCandidate.candidate_profile_id jc with
  | Some _, Some _ =>
      let tr := or_none (strip transcript) in
      let sc := interview_score keys llm n in
      let inv_score := match sc with Some s => Some s | None => InterviewSession.score inv end in
      let jc_score := match sc with Some s => Some s | None => JobCandidate.score jc end in
      let inv1 := InterviewSession.with_completion inv tr ended_now inv_score in
      let jc1 := JobCandidate.with_completion jc jc_score completed_now in
      let st1 := with_sessions st (<[ik := inv1]> (interview_sessions st)) in
      let st2 := with_job_candidates st1
                   (<[InterviewSession.job_candidate_id inv := jc1]> (job_candidates st1)) in
      (st2, Ok inv_score)
  | _, _ => (st, Err (not_found "Job or candidate not found."))
  end
  end
  end
  end).

(** [_job_schema_for_best_match]: the schema's JSON text, or 400. *)
Definition job_schema_for_best_match (json_dumps : json -> string) (job : Job.t) : Res string :=
  match Job.description_schema job with
  | Some schema =>
      if json_truthy schema then Ok (json_dumps schema)
      else Err (bad_request "Best match requires job with structured description (schema). Save or generate the JD in structured form first.")
  | None => Err (bad_request "Best match requires job with structured description (schema). Save or generate the JD in structured form first.")
  end.

(** [AgentClient.job_description_generate_schema]: [{"job_description": ...}]
    built from the model's dict, or [None] when the structured call fails. *)
Definition job_description_generate_schema (keys : list string)
    (llm : nat -> option (list (string * json))) (n : nat) : option json * nat :=
  let '(r, n') := Invoker.invoke_structured_with_retry keys llm n in
  (option_map (fun jd => JObj [("job_description"%string, JObj jd)]) r, n').

Section Publish.

(** [secrets.token_urlsafe(32)], read for the new session of key [k]. *)
Variable token_urlsafe : Z -> string.
(** [schemas.job_description_to_markdown] and [json.dumps]. *)
Variable job_description_to_markdown : json -> string.
Variable json_dumps : json -> string.

(** [employer_create_job] *)
Definition employer_create_job (st : Store) (user_id : Z) (title : string)
    (description_md : option string) (job_description : option json) (now : Z) : Endpoint Z :=
  let '(schema, md) :=
    match job_description with
    | Some jd =>
        let jd' := match json_get "job_description" jd with
                   | Some _ => jd
                   | None => JObj [("job_description"%string, jd)]
                   end in
        (Some jd', Some (job_description_to_markdown jd'))
    | None => (None, Some (match description_md with Some m => m | None => EmptyString end))
    end in
  let k := next_id (jobs st) in
  (with_jobs st (<[k := Job.mk user_id title md schema Draft now]> (jobs st)), Ok k).

(** One turn of the [for i, entry in enumerate(top_5)] loop of
    [employer_publish_job]: a [JobCandidate] and its [InterviewSession] for
    an entry whose [profile_id] names a stored profile; other entries are
    skipped. A [profile_id] of [0] is falsy, so [entry.get("id")] ([None])
    is looked up instead and nothing is found. *)
Definition create_job_candidate (job_id : Z) (job : Job.t) (acc : Res Store)
    (entry : Ranker.RankedEntry) : Res Store :=
  match acc with
  | Err e => Err e
  | Ok st =>
    let profile_id := Ranker.profile_id entry in
    let cand := if profile_id =? 0 then None else candidate_profiles st !! profile_id in
    match cand with
    | None => Ok st
    | Some _ =>
        let jck := next_id (job_candidates st) in
        let jc := JobCandidate.mk job_id profile_id (Ranker.rank entry) (Job.created_at job)
                    None None None None false in
        let st1 := with_job_candidates st (<[jck := jc]> (job_candidates st)) in
        let ik := next_id (interview_sessions st1) in
        let token := token_urlsafe ik in
        match select (fun _ inv => String.eqb (InterviewSession.interview_link_token inv) token)
                (interview_sessions st1) with
        | [] => Ok (with_sessions st1 (<[ik := InterviewSession.mk jck token None None None None None None]>
                                         (interview_sessions st1)))
        | _ => Err IntegrityError
        end
    end
  end.

(** [employer_publish_job]. [llm_jd] answers the JD-extraction call and
    [llm_rank] the re-ranking call; [n] is the key-rotation counter. *)
Definition employer_publish_job (st : Store) (job_id user_id : Z) (keys : list string)
    (llm_jd : nat -> option (list (string * json))) (llm_rank : nat -> option Ranker.RankingOutput)
    (n : nat) : Endpoint unit :=
  match find_job st job_id user_id with
  | None => (st, Err (not_found "Job not found"))
  | Some job =>
    let md := match Job.description_md job with Some m => m | None => EmptyString end in
    let generated : Res (Job.t * nat) :=
      if negb (opt_truthy json_truthy (Job.description_schema job)) && truthy (strip md) then
        let '(result, n1) := job_description_generate_schema keys llm_jd n in
        match result with
        | None => Err TypeError                       (* "error" in None *)
        | Some r =>
            match json_get "error" r with
            | Some _ => Ok (job, n1)
            | None =>
                if opt_truthy json_truthy (json_get "job_description" r)
                then Ok (Job.with_schema job (Some r) (Some (job_description_to_markdown r)), n1)
                else Ok (job, n1)
            end
        end
      else Ok (job, n) in
    guard st generated (fun '(job1, n1) =>
    let candidates_payload :=
      List.map (fun '(k, p) => Ranker.mkPayload k (CandidateProfile.full_name p)
                                 (CandidateProfile.email p) (CandidateProfile.skills p))
        (rows (candidate_profiles st)) in
    guard st (job_schema_for_best_match json_dumps job1) (fun job_schema =>
    let '(top, _) := Ranker.resume_best_match keys llm_rank n1 job_schema candidates_payload in
    let top_5 := Ranker.publish_selection top in
    let st1 := with_jobs st (<[job_id := job1]> (jobs st)) in
    guard st (fold_left (create_job_candidate job_id job1) top_5 (Ok st1)) (fun st2 =>
    (with_jobs st2 (<[job_id := Job.with_status job1 Published]> (jobs st2)), Ok tt))))
  end.

End Publish.

(** One element of [candidates_payload] in [employer_finalize_job]. *)
Record FinalEntry := mkFinal {
  fe_job_candidate_id : Z; fe_profile_id : Z; fe_full_name : string;
  fe_transcript : option string; fe_score : option Q }.

(** [c["score"] or 0] *)
Definition score_or_0 (s : option Q) : Q := match s with Some q => q | None => 0%Q end.

(** [sorted(xs, key=lambda c: c["score"] or 0, reverse=True)]: stable, so
    entries with equal keys keep their order. *)
Fixpoint insert_desc (x : FinalEntry) (l : list FinalEntry) : list FinalEntry :=
  match l with
  | [] => [x]
  | y :: l' =>
      if Qle_bool (score_or_0 (fe_score y)) (score_or_0 (fe_score x)) then x :: l
      else y :: insert_desc x l'
  end.

Definition sorted_by_score (l : list FinalEntry) : list FinalEntry :=
  fold_right insert_desc [] l.

(** The rows of [select(JobCandidate, InterviewSession, CandidateProfile)
    .outerjoin(InterviewSession, ...).join(CandidateProfile, ...)
    .where(JobCandidate.job_id == job_id).order_by(JobCandidate.id)]. *)
Definition finalize_rows (st : Store) (job_id : Z)
    : list (Z * JobCandidate.t * option InterviewSession.t * CandidateProfile.t) :=
  flat_map (fun '(jck, jc) =>
    match candidate_profiles st !! JobCandidate.candidate_profile_id jc with
    | None => []
    | Some cp =>
        match select (fun _ inv => InterviewSession.job_candidate_id inv =? jck)
                (interview_sessions st) with
        | [] => [(jck, jc, None, cp)]
        | invs => List.map (fun '(_, inv) => (jck, jc, Some inv, cp)) invs
        end
    end)
    (select (fun _ jc => JobCandidate.job_id jc =? job_id) (job_candidates st)).

(** [jc.interview_completed_at and (inv and inv.transcript)] *)
Definition qualifies (jc : JobCandidate.t) (inv : option InterviewSession.t) : bool :=
  match JobCandidate.interview_completed_at jc, inv with
  | Some _, Some i => opt_truthy truthy (InterviewSession.transcript i)
  | _, _ => false
  end.

(** [cp.full_name or "Candidate"] *)
Definition full_name_or_default (full_name : option string) : string :=
  match full_name with
  | Some n => if truthy n then n else "Candidate"
  | None => "Candidate"
  end.

Definition finalize_payload (st : Store) (job_id : Z) : list FinalEntry :=
  List.map (fun '(jck, jc, inv, cp) =>
              mkFinal jck (JobCandidate.candidate_profile_id jc)
                (full_name_or_default (CandidateProfile.full_name cp))
                (match inv with Some i => InterviewSession.transcript i | None => None end)
                (JobCandidate.score jc))
    (List.filter (fun '(_, jc, inv, _) => qualifies jc inv) (finalize_rows st job_id)).

Definition top_3 (payload : list FinalEntry) : list FinalEntry :=
  firstn 3 (sorted_by_score payload).

Definition memZ (x : Z) (l : list Z) : bool := existsb (Z.eqb x) l.

(** [for jc in jc_rows: jc.selected_top_3 = jc.candidate_profile_id in top_3_ids] *)
Definition mark_selected (job_id : Z) (top_3_ids : list Z) (m : gmap Z JobCandidate.t)
    : gmap Z JobCandidate.t :=
  (fun jc => if JobCandidate.job_id jc =? job_id
             then JobCandidate.with_selected jc (memZ (JobCandidate.candidate_profile_id jc) top_3_ids)
             else jc) <$> m.

(** [employer_finalize_job]; returns the [full_name]s of the top 3. The
    reporting call to the JD mastermind is caught and leaves no trace. *)
Definition employer_finalize_job (st : Store) (job_id user_id : Z)
    : Endpoint (list string) :=
  match find_job st job_id user_id with
  | None => (st, Err (not_found "Job not found."))
  | Some _ =>
    let candidates_payload := finalize_payload st job_id in
    let top := top_3 candidates_payload in
    let top_3_ids := List.map fe_profile_id top in
    match candidates_payload with
    | [] => (st, Err (bad_request "No completed interviews to finalize. Candidates must complete their video interviews first."))
    | _ =>
      let st1 := with_job_candidates st (mark_selected job_id top_3_ids (job_candidates st)) in
      let st2 := match find_job st1 job_id user_id with
                 | Some job => with_jobs st1 (<[job_id := Job.with_status job Closed]> (jobs st1))
                 | None => st1
                 end in
      (st2, Ok (List.map fe_full_name top))
    end
  end.

End Workflow.

(* ------------------------------------------------------------------ *)
(** ** Queries over the tables *)

Module Tables.
Import Workflow.

Lemma filter_perm {A : Type} (f : A -> bool) (l l' : list A) :
  l ≡ₚ l' -> List.filter f l ≡ₚ List.filter f l'.
Proof.
  induction 1; simpl.
  - constructor.
  - destruct (f x); auto.
  - destruct (f x), (f y); try constructor; auto; apply Permutation_refl.
  - etransitivity; eauto.
Qed.

Lemma filter_all_false {A : Type} (f : A -> bool) (l : list A) :
  (forall x, In x l -> f x = false) -> List.filter f l = [].
Proof.
  induction l as [|x l IH]; intro H; simpl; auto.
  rewrite H by (now left). apply IH. intros y Hy. apply H. now right.
Qed.

Lemma insert_by_key_perm {A : Type} (x : Z * A) (l : list (Z * A)) :
  insert_by_key x l ≡ₚ x :: l.
Proof.
  induction l as [|y l IH]; simpl; auto.
  destruct (fst x <=? fst y)%Z; auto.
  rewrite IH. constructor.
Qed.

Lemma rows_perm {A : Type} (m : gmap Z A) : rows m ≡ₚ map_to_list m.
Proof.
  unfold rows. induction (map_to_list m) as [|x l IH]; simpl; auto.
  rewrite insert_by_key_perm, IH. reflexivity.
Qed.

Lemma in_rows {A : Type} (m : gmap Z A) k x : In (k, x) (rows m) <-> m !! k = Some x.
Proof.
  rewrite <- elem_of_map_to_list, list_elem_of_In. split; intro H.
  - eapply Permutation_in; [apply rows_perm|exact H].
  - eapply Permutation_in; [symmetry; apply rows_perm|exact H].
Qed.

Lemma perm_nil_eq {A : Type} (l : list A) : l ≡ₚ [] -> l = [].
Proof. intro H. now apply Permutation_nil, Permutation_sym. Qed.

Lemma perm_single_eq {A : Type} (l : list A) a : l ≡ₚ [a] -> l = [a].
Proof. intro H. now apply Permutation_length_1_inv. Qed.

(** The rows of [m] are those of [delete k m] plus the row at [k]. *)
Lemma select_split {A : Type} (p : Z -> A -> bool) (m : gmap Z A) k x :
  m !! k = Some x ->
  select p m ≡ₚ (if p k x then [(k, x)] else []) ++ select p (delete k m).
Proof.
  intro Hk. unfold select.
  etransitivity; [apply filter_perm, rows_perm|].
  etransitivity; [apply filter_perm; symmetry; apply (map_to_list_delete m k x Hk)|].
  simpl. destruct (p k x); simpl; [apply perm_skip|]; apply filter_perm;
    symmetry; apply rows_perm.
Qed.

(** Selecting on the primary key finds at most the row stored there. *)
Lemma select_key {A : Type} (m : gmap Z A) (j : Z) (p : A -> bool) :
  select (fun k x => (k =? j) && p x) m
  = match m !! j with Some x => if p x then [(j, x)] else [] | None => [] end.
Proof.
  assert (Hnone : forall m' : gmap Z A, m' !! j = None ->
            select (fun k x => (k =? j) && p x) m' = []).
  { intros m' Hj. unfold select. apply filter_all_false.
    intros [k x] Hin. simpl. apply in_rows in Hin.
    destruct (Z.eqb_spec k j); [subst; congruence|reflexivity]. }
  destruct (m !! j) as [x|] eqn:Hj; [|now apply Hnone].
  pose proof (select_split (fun k x => (k =? j) && p x) m j x Hj) as Hs.
  rewrite (Hnone (delete j m)) in Hs by (apply lookup_delete_eq).
  rewrite Z.eqb_refl, app_nil_r in Hs. simpl in Hs.
  destruct (p x); [now apply perm_single_eq | now apply perm_nil_eq].
Qed.

(** Overwriting the only selected row with a row that is still selected
    keeps it the only selected row. *)
Lemma select_insert_single {A : Type} (p : Z -> A -> bool) (m : gmap Z A) k x x' :
  select p m = [(k, x)] -> p k x' = true -> select p (<[k := x']> m) = [(k, x')].
Proof.
  intros Hsel Hp'.
  assert (Hin : In (k, x) (select p m)) by (rewrite Hsel; now left).
  unfold select in Hin. apply filter_In in Hin. destruct Hin as [Hin Hpx]. simpl in Hpx.
  apply in_rows in Hin.
  pose proof (select_split p m k x Hin) as Hs. rewrite Hpx, Hsel in Hs. simpl in Hs.
  apply Permutation_cons_inv in Hs. apply Permutation_nil in Hs.
  pose proof (select_split p (<[k := x']> m) k x' (lookup_insert_eq m k x')) as Hs'.
  rewrite Hp', delete_insert_eq, Hs in Hs'. simpl in Hs'.
  now apply perm_single_eq.
Qed.

Lemma one_or_none_single {A : Type} (a : A) : one_or_none [a] = Ok (Some a).
Proof. reflexivity. Qed.

Lemma one_or_none_some {A : Type} (l : list A) a : one_or_none l = Ok (Some a) -> l = [a].
Proof. destruct l as [|x [|y l]]; simpl; congruence. Qed.

End Tables.

(* ------------------------------------------------------------------ *)
(** ** Facts about the endpoints *)

Module WorkflowFacts.
Import Workflow Tables.

Ltac split_matches H :=
  repeat match type of H with
         | context [match ?x with _ => _ end] => destruct x
         end.

(** A successful [candidate_respond_to_interview] stores the decision in the
    row [job_candidate_id], whose decision was unset, and leaves the profiles
    as they were. *)
Lemma respond_ok_store st jcid uid interested q st1 :
  candidate_respond_to_interview st jcid uid interested q = (st1, Ok tt) ->
  exists pk p jc,
    select (fun _ p => CandidateProfile.user_id p =? uid) (candidate_profiles st) = [(pk, p)] /\
    JobCandidate.candidate_profile_id jc = pk /\
    job_candidates st !! jcid = Some jc /\
    JobCandidate.candidate_decision jc = None /\
    job_candidates st1
      = <[jcid := JobCandidate.with_decision jc (if interested then Interested else Rejected)]>
          (job_candidates st) /\
    candidate_profiles st1 = candidate_profiles st.
Proof.
  unfold candidate_respond_to_interview, guard. intro H.
  destruct (one_or_none (select (fun _ p => CandidateProfile.user_id p =? uid)
                           (candidate_profiles st))) as [[[pk p]|]|] eqn:E1; try congruence.
  destruct (one_or_none (select (fun k x => (k =? jcid) && (JobCandidate.candidate_profile_id x =? pk))
                           (job_candidates st))) as [[[jck jc]|]|] eqn:E2; try congruence.
  apply one_or_none_some in E2.
  rewrite (select_key (job_candidates st) jcid (fun x => JobCandidate.candidate_profile_id x =? pk)) in E2.
  destruct (job_candidates st !! jcid) as [x|] eqn:Ej; [|discriminate].
  destruct (JobCandidate.candidate_profile_id x =? pk) eqn:Epk; [|discriminate].
  injection E2 as <- <-.
  destruct (JobCandidate.candidate_decision x) eqn:Ed; [congruence|].
  exists pk, p, x. split; [now apply one_or_none_some|]. split; [now apply Z.eqb_eq|].
  split; [reflexivity|]. split; [exact Ed|].
  destruct interested; split_matches H; injection H as <-; split; reflexivity.
Qed.

(** Whoever calls it, [candidate_respond_to_interview] on a row whose decision
    is set fails and commits nothing; for the owner of the row the error is
    the 400 conflict. *)
Lemma respond_decided st jcid jc uid interested q :
  job_candidates st !! jcid = Some jc ->
  JobCandidate.candidate_decision jc <> None ->
  (exists e, candidate_respond_to_interview st jcid uid interested q = (st, Err e)) /\
  (forall pk p,
     select (fun _ p => CandidateProfile.user_id p =? uid) (candidate_profiles st) = [(pk, p)] ->
     JobCandidate.candidate_profile_id jc = pk ->
     candidate_respond_to_interview st jcid uid interested q
     = (st, Err (bad_request "Already responded to this interview"))).
Proof.
  intros Hj Hd. unfold candidate_respond_to_interview, guard.
  split.
  - destruct (one_or_none (select (fun _ p => CandidateProfile.user_id p =? uid)
                             (candidate_profiles st))) as [[[pk p]|]|e] eqn:E1; [|eauto|eauto].
    rewrite (select_key (job_candidates st) jcid
               (fun x => JobCandidate.candidate_profile_id x =? pk)), Hj.
    destruct (JobCandidate.candidate_profile_id jc =? pk); simpl.
    + destruct (JobCandidate.candidate_decision jc); [eauto|congruence].
    + eauto.
  - intros pk p Hsel Hpk. rewrite Hsel. simpl.
    rewrite (select_key (job_candidates st) jcid
               (fun x => JobCandidate.candidate_profile_id x =? pk)), Hj.
    subst pk. rewrite Z.eqb_refl. simpl.
    destruct (JobCandidate.candidate_decision jc); [reflexivity|congruence].
Qed.

End WorkflowFacts.

(* ------------------------------------------------------------------ *)
(** ** Facts about [employer_finalize_job] and [interview_complete] *)

Module FinalizeFacts.
Import Workflow Tables.

(** [a] comes before [b] in [sorted(..., reverse=True)] order. *)
Definition score_ge (a b : FinalEntry) : Prop :=
  (score_or_0 (fe_score b) <= score_or_0 (fe_score a))%Q.

Lemma insert_desc_perm x l : insert_desc x l ≡ₚ x :: l.
Proof.
  induction l as [|y l IH]; simpl; auto.
  destruct (Qle_bool _ _); auto.
  rewrite IH. constructor.
Qed.

Lemma sorted_by_score_perm l : sorted_by_score l ≡ₚ l.
Proof.
  induction l as [|x l IH]; simpl; auto.
  rewrite insert_desc_perm, IH. reflexivity.
Qed.

Lemma Forall_perm {A : Type} (P : A -> Prop) l l' : l ≡ₚ l' -> Forall P l -> Forall P l'.
Proof.
  intros Hp H. apply List.Forall_forall. intros x Hx.
  apply (proj1 (List.Forall_forall P l) H). eapply Permutation_in; [symmetry; exact Hp|exact Hx].
Qed.

Lemma insert_desc_sorted x l :
  StronglySorted score_ge l -> StronglySorted score_ge (insert_desc x l).
Proof.
  induction l as [|y l IH]; intro H; simpl.
  - repeat constructor.
  - inversion H as [|? ? Hl Hy]; subst.
    destruct (Qle_bool (score_or_0 (fe_score y)) (score_or_0 (fe_score x))) eqn:E.
    + apply Qle_bool_iff in E.
      constructor; [exact H|]. constructor; [exact E|].
      eapply List.Forall_impl; [|exact Hy]. intros z Hz. unfold score_ge in *. eapply Qle_trans; eauto.
    + constructor; [now apply IH|].
      apply (Forall_perm _ (x :: l)); [symmetry; apply insert_desc_perm|].
      constructor; [|exact Hy].
      unfold score_ge. apply Qlt_le_weak, Qnot_le_lt. intro Hc.
      apply Qle_bool_iff in Hc. congruence.
Qed.

Lemma sorted_by_score_sorted l : StronglySorted score_ge (sorted_by_score l).
Proof.
  induction l as [|x l IH]; simpl; [constructor|]. now apply insert_desc_sorted.
Qed.

Lemma StronglySorted_app {A : Type} (R : A -> A -> Prop) l1 l2 a b :
  StronglySorted R (l1 ++ l2) -> In a l1 -> In b l2 -> R a b.
Proof.
  induction l1 as [|x l1 IH]; simpl; [tauto|].
  intros H Ha Hb. inversion H as [|? ? H1 H2]; subst.
  destruct Ha as [<-|Ha].
  - apply (proj1 (List.Forall_forall _ _) H2). apply in_or_app. now right.
  - now apply IH.
Qed.

(** Every entry of the top 3 scores at least as high as every entry left out. *)
Lemma top_3_dominates payload a b :
  In a (top_3 payload) -> In b (skipn 3 (sorted_by_score payload)) -> score_ge a b.
Proof.
  unfold top_3. intros Ha Hb.
  apply (StronglySorted_app score_ge (firstn 3 (sorted_by_score payload))
           (skipn 3 (sorted_by_score payload))); auto.
  rewrite firstn_skipn. apply sorted_by_score_sorted.
Qed.

Lemma in_top_3 payload e : In e (top_3 payload) -> In e payload.
Proof.
  unfold top_3. intro H.
  assert (H' : In e (sorted_by_score payload)).
  { rewrite <- (firstn_skipn 3 (sorted_by_score payload)). apply in_or_app. now left. }
  eapply Permutation_in; [apply sorted_by_score_perm|exact H'].
Qed.

(** [employer_finalize_job] never reads the jobs table to build its payload. *)
Lemma finalize_payload_with_jobs st m j : finalize_payload (with_jobs st m) j = finalize_payload st j.
Proof. reflexivity. Qed.

(** Rows of a table mapped pointwise. *)
Lemma insert_by_key_map {A B : Type} (f : A -> B) (x : Z * A) l :
  insert_by_key (fst x, f (snd x)) (List.map (fun kv => (fst kv, f (snd kv))) l)
  = List.map (fun kv => (fst kv, f (snd kv))) (insert_by_key x l).
Proof.
  induction l as [|y l IH]; simpl; auto.
  destruct (fst x <=? fst y)%Z; simpl; auto. now rewrite IH.
Qed.

Lemma rows_fmap {A B : Type} (f : A -> B) (m : gmap Z A) :
  rows (f <$> m) = List.map (fun kv => (fst kv, f (snd kv))) (rows m).
Proof.
  unfold rows. rewrite map_to_list_fmap.
  induction (map_to_list m) as [|[k x] l IH]; [reflexivity|].
  cbn [foldr fmap list_fmap]. change (list_fmap _ _ (prod_map id f) l) with (prod_map id f <$> l).
  rewrite IH. apply (insert_by_key_map f (k, x)).
Qed.

Lemma filter_map_comm {A B : Type} (h : B -> bool) (g : A -> B) l :
  List.filter h (List.map g l) = List.map g (List.filter (fun x => h (g x)) l).
Proof.
  induction l as [|x l IH]; simpl; auto. destruct (h (g x)); simpl; now rewrite IH.
Qed.

Lemma select_fmap {A : Type} (p : Z -> A -> bool) (f : A -> A) (m : gmap Z A) :
  (forall k x, p k (f x) = p k x) ->
  select p (f <$> m) = List.map (fun kv => (fst kv, f (snd kv))) (select p m).
Proof.
  intro Hp. unfold select. rewrite rows_fmap, filter_map_comm. f_equal.
  apply filter_ext. intros [k x]. simpl. apply Hp.
Qed.

(** What [mark_selected] changes of a row: [selected_top_3] only. *)
Definition mark (job_id : Z) (top_3_ids : list Z) (jc : JobCandidate.t) : JobCandidate.t :=
  if JobCandidate.job_id jc =? job_id
  then JobCandidate.with_selected jc (memZ (JobCandidate.candidate_profile_id jc) top_3_ids)
  else jc.

Lemma mark_selected_fmap j ids m : mark_selected j ids m = mark j ids <$> m.
Proof. reflexivity. Qed.

Lemma mark_job_id j ids jc : JobCandidate.job_id (mark j ids jc) = JobCandidate.job_id jc.
Proof. unfold mark. destruct (_ =? _); reflexivity. Qed.
Lemma mark_profile j ids jc :
  JobCandidate.candidate_profile_id (mark j ids jc) = JobCandidate.candidate_profile_id jc.
Proof. unfold mark. destruct (_ =? _); reflexivity. Qed.
Lemma mark_score j ids jc : JobCandidate.score (mark j ids jc) = JobCandidate.score jc.
Proof. unfold mark. destruct (_ =? _); reflexivity. Qed.
Lemma mark_qualifies j ids jc inv : qualifies (mark j ids jc) inv = qualifies jc inv.
Proof. unfold mark. destruct (_ =? _); reflexivity. Qed.

Lemma mark_mark j ids jc : mark j ids (mark j ids jc) = mark j ids jc.
Proof.
  unfold mark. destruct (JobCandidate.job_id jc =? j) eqn:E; simpl; [|now rewrite E].
  rewrite E. reflexivity.
Qed.

Lemma mark_selected_idem j ids m :
  mark_selected j ids (mark_selected j ids m) = mark_selected j ids m.
Proof.
  rewrite !mark_selected_fmap, <- map_fmap_compose.
  apply map_fmap_ext. intros i x _. apply mark_mark.
Qed.

Lemma map_cons_eq {A B : Type} (f : A -> B) x l : List.map f (x :: l) = f x :: List.map f l.
Proof. reflexivity. Qed.

Lemma flat_map_cons_eq {A B : Type} (f : A -> list B) x l : flat_map f (x :: l) = f x ++ flat_map f l.
Proof. reflexivity. Qed.

(** [mark_selected] changes the rows of the finalize query in their
    [JobCandidate] only. *)
Lemma finalize_rows_mark st j ids j' :
  finalize_rows (with_job_candidates st (mark_selected j ids (job_candidates st))) j'
  = List.map (fun '(k, jc, inv, cp) => (k, mark j ids jc, inv, cp)) (finalize_rows st j').
Proof.
  unfold finalize_rows. simpl.
  rewrite mark_selected_fmap, select_fmap by (intros; simpl; now rewrite mark_job_id).
  induction (select (fun _ jc => JobCandidate.job_id jc =? j') (job_candidates st))
    as [|[k jc] l IH]; [reflexivity|].
  rewrite map_cons_eq, !flat_map_cons_eq, List.map_app, IH. f_equal.
  cbn [fst snd]. rewrite mark_profile.
  destruct (candidate_profiles st !! JobCandidate.candidate_profile_id jc) as [cp|]; [|reflexivity].
  destruct (select (fun _ inv => InterviewSession.job_candidate_id inv =? k)
              (interview_sessions st)) as [|[ik inv] invs]; [reflexivity|].
  cbn [List.map]. f_equal. rewrite List.map_map. apply map_ext. intros [? ?]. reflexivity.
Qed.

(** The payload does not depend on [selected_top_3]. *)
Lemma finalize_payload_mark st j ids j' :
  finalize_payload (with_job_candidates st (mark_selected j ids (job_candidates st))) j'
  = finalize_payload st j'.
Proof.
  unfold finalize_payload. rewrite finalize_rows_mark, filter_map_comm, List.map_map.
  rewrite (filter_ext _ (fun '(_, jc, inv, _) => qualifies jc inv)).
  - apply map_ext. intros [[[k jc] inv] cp]. now rewrite mark_profile, mark_score.
  - intros [[[k jc] inv] cp]. apply mark_qualifies.
Qed.

Lemma find_job_with_job_candidates st m j u :
  find_job (with_job_candidates st m) j u = find_job st j u.
Proof. reflexivity. Qed.

(** A successful [employer_finalize_job]: what it commits. *)
Lemma finalize_ok st j u st1 names :
  employer_finalize_job st j u = (st1, Ok names) ->
  exists job,
    find_job st j u = Some job /\
    finalize_payload st j <> [] /\
    names = List.map fe_full_name (top_3 (finalize_payload st j)) /\
    st1 = with_jobs
            (with_job_candidates st
               (mark_selected j (List.map fe_profile_id (top_3 (finalize_payload st j)))
                  (job_candidates st)))
            (<[j := Job.with_status job Closed]> (jobs st)).
Proof.
  unfold employer_finalize_job. intro H.
  destruct (find_job st j u) as [job|] eqn:Ej; [|discriminate].
  destruct (finalize_payload st j) as [|e es] eqn:Ep; [discriminate|].
  rewrite find_job_with_job_candidates, Ej in H. rewrite <- Ep in H.
  injection H as <- <-. exists job. rewrite Ep. repeat split; auto; discriminate.
Qed.

Lemma find_job_with_status st st' j u job s :
  find_job st j u = Some job ->
  find_job (with_jobs st' (<[j := Job.with_status job s]> (jobs st))) j u = Some (Job.with_status job s).
Proof.
  unfold find_job. simpl. rewrite lookup_insert_eq.
  destruct (jobs st !! j) as [x|]; [|discriminate].
  destruct (Job.employer_id x =? u) eqn:E; [|discriminate].
  intro H. injection H as <-. simpl. now rewrite E.
Qed.

(** A second [employer_finalize_job] after a successful one succeeds with the
    same answer and leaves every [JobCandidate] as the first one left it. *)
Lemma finalize_twice st j u st1 names :
  employer_finalize_job st j u = (st1, Ok names) ->
  exists st2, employer_finalize_job st1 j u = (st2, Ok names) /\
              job_candidates st2 = job_candidates st1.
Proof.
  intro H. destruct (finalize_ok _ _ _ _ _ H) as (job & Ej & Hne & Hn & ->).
  set (ids := List.map fe_profile_id (top_3 (finalize_payload st j))).
  assert (Hp : finalize_payload
                 (with_jobs (with_job_candidates st (mark_selected j ids (job_candidates st)))
                    (<[j := Job.with_status job Closed]> (jobs st))) j
               = finalize_payload st j)
    by (rewrite finalize_payload_with_jobs; apply finalize_payload_mark).
  unfold employer_finalize_job at 1.
  rewrite (find_job_with_status st _ j u job Closed Ej).
  rewrite Hp.
  destruct (finalize_payload st j) as [|e es] eqn:Ep; [congruence|].
  eexists. split; [rewrite Hn; reflexivity|].
  destruct (find_job (with_job_candidates _ _) j u); simpl; apply mark_selected_idem.
Qed.

(** [InterviewSession.job_candidate_id] is declared [unique=True]: no two
    sessions name the same job candidate. *)
Definition unique_job_candidate_ids (m : gmap Z InterviewSession.t) : bool :=
  forallb (fun r1 =>
    forallb (fun r2 =>
      negb (InterviewSession.job_candidate_id (snd r1) =? InterviewSession.job_candidate_id (snd r2))
      || (fst r1 =? fst r2)) (rows m)) (rows m).

Lemma unique_job_candidate_ids_spec m k1 k2 x1 x2 :
  unique_job_candidate_ids m = true -> m !! k1 = Some x1 -> m !! k2 = Some x2 ->
  InterviewSession.job_candidate_id x1 = InterviewSession.job_candidate_id x2 -> k1 = k2.
Proof.
  unfold unique_job_candidate_ids. intros Hu H1 H2 He.
  apply in_rows in H1, H2.
  rewrite forallb_forall in Hu. specialize (Hu _ H1). rewrite forallb_forall in Hu.
  specialize (Hu _ H2). simpl in Hu. rewrite He, Z.eqb_refl in Hu. simpl in Hu.
  now apply Z.eqb_eq.
Qed.

(** Overwriting a session keeps it the only one of its job candidate. *)
Lemma select_unique_insert m ik inv x' :
  unique_job_candidate_ids m = true -> m !! ik = Some inv ->
  InterviewSession.job_candidate_id x' = InterviewSession.job_candidate_id inv ->
  select (fun _ x => InterviewSession.job_candidate_id x =? InterviewSession.job_candidate_id inv)
    (<[ik := x']> m) = [(ik, x')].
Proof.
  intros Hu Hik Hx.
  pose proof (select_split (fun _ x => InterviewSession.job_candidate_id x
                                       =? InterviewSession.job_candidate_id inv)
                (<[ik := x']> m) ik x' (lookup_insert_eq m ik x')) as Hs.
  cbv beta in Hs. rewrite Hx, Z.eqb_refl, delete_insert_eq in Hs.
  assert (Hnil : select (fun _ x => InterviewSession.job_candidate_id x
                                    =? InterviewSession.job_candidate_id inv) (delete ik m) = []).
  { unfold select. apply filter_all_false. intros [k x] Hin. simpl.
    apply in_rows in Hin. apply lookup_delete_Some in Hin as [Hne Hk].
    destruct (Z.eqb_spec (InterviewSession.job_candidate_id x) (InterviewSession.job_candidate_id inv))
      as [He|]; [|reflexivity].
    exfalso. apply Hne. symmetry. eapply unique_job_candidate_ids_spec; eauto. }
  rewrite Hnil in Hs. now apply perm_single_eq.
Qed.

(** A job candidate whose only session has no transcript never enters the
    payload of [employer_finalize_job]. *)
Lemma payload_excludes st j jck ik inv e :
  select (fun _ x => InterviewSession.job_candidate_id x =? jck) (interview_sessions st) = [(ik, inv)] ->
  InterviewSession.transcript inv = None ->
  In e (finalize_payload st j) -> fe_job_candidate_id e <> jck.
Proof.
  intros Hs Ht Hin. unfold finalize_payload in Hin.
  apply in_map_iff in Hin as [[[[k jc] invo] cp] [<- Hin]].
  apply filter_In in Hin as [Hin Hq]. simpl. intros ->.
  unfold finalize_rows in Hin. apply in_flat_map in Hin as [[k' x] [_ Hin]].
  destruct (candidate_profiles st !! JobCandidate.candidate_profile_id x) as [c|]; [|destruct Hin].
  destruct (select (fun _ inv0 => InterviewSession.job_candidate_id inv0 =? k')
              (interview_sessions st)) as [|y ys] eqn:E.
  - destruct Hin as [Heq|[]]. injection Heq as _ _ <- _.
    unfold qualifies in Hq. destruct (JobCandidate.interview_completed_at jc); discriminate.
  - apply in_map_iff in Hin as [[ik' inv'] [Heq Hin]]. injection Heq as <- _ <- _.
    rewrite Hs in E. rewrite <- E in Hin. destruct Hin as [Heq|[]]. injection Heq as _ <-.
    unfold qualifies in Hq. rewrite Ht in Hq.
    destruct (JobCandidate.interview_completed_at jc); discriminate.
Qed.

(** Every entry of the payload comes from a row of the job, under its key
    and with its profile. *)
Lemma payload_row st j e :
  In e (finalize_payload st j) ->
  exists jc, job_candidates st !! fe_job_candidate_id e = Some jc /\
             JobCandidate.job_id jc = j /\
             JobCandidate.candidate_profile_id jc = fe_profile_id e.
Proof.
  unfold finalize_payload. intro Hin.
  apply in_map_iff in Hin as [[[[k jc] invo] cp] [<- Hin]].
  apply filter_In in Hin as [Hin _].
  unfold finalize_rows in Hin. apply in_flat_map in Hin as [[k' x] [Hsel Hin]].
  unfold select in Hsel. apply filter_In in Hsel as [Hrow Hj].
  apply Tables.in_rows in Hrow. simpl in Hj. apply Z.eqb_eq in Hj.
  destruct (candidate_profiles st !! JobCandidate.candidate_profile_id x) as [c|]; [|destruct Hin].
  destruct (select (fun _ inv0 => InterviewSession.job_candidate_id inv0 =? k')
              (interview_sessions st)) as [|y ys].
  - destruct Hin as [Heq|[]]. injection Heq as <- <- _ _. now exists x.
  - apply in_map_iff in Hin as [[ik' inv'] [Heq _]]. injection Heq as <- <- _ _. now exists x.
Qed.

Lemma memZ_map_spec {A : Type} (f : A -> Z) x l :
  memZ x (List.map f l) = true <-> exists e, In e l /\ f e = x.
Proof.
  unfold memZ. rewrite existsb_exists. split.
  - intros [y [Hy Hx]]. apply in_map_iff in Hy as [e [<- He]].
    apply Z.eqb_eq in Hx. now exists e.
  - intros [e [He <-]]. exists (f e). split; [now apply in_map|apply Z.eqb_refl].
Qed.

(** The row of a successful [employer_finalize_job]'s job, after it. *)
Lemma finalize_row st j u st2 names k jc :
  employer_finalize_job st j u = (st2, Ok names) ->
  job_candidates st !! k = Some jc -> JobCandidate.job_id jc = j ->
  job_candidates st2 !! k
  = Some (JobCandidate.with_selected jc
            (memZ (JobCandidate.candidate_profile_id jc)
               (List.map fe_profile_id (top_3 (finalize_payload st j))))).
Proof.
  intros Hf Hk Hj. destruct (finalize_ok _ _ _ _ _ Hf) as (job & _ & _ & _ & ->).
  simpl. rewrite mark_selected_fmap, lookup_fmap, Hk. simpl.
  unfold mark. rewrite Hj, Z.eqb_refl. reflexivity.
Qed.

End FinalizeFacts.

(* ------------------------------------------------------------------ *)
(** ** A concrete run of the workflow

    Five profiles (user ids 11..15), one employer (user id 100) and one job
    created from a structured description. [token_urlsafe] gives session [k]
    the one-letter token [A], [B], ... in order, and every model call of the
    run answers with the given value. *)

Module Scenario.
Import Workflow.

Definition token_urlsafe (k : Z) : string :=
  String (ascii_of_nat (Z.to_nat k + 64)) EmptyString.
Definition job_description_to_markdown (_ : json) : string := "# Barista"%string.
Definition json_dumps (_ : json) : string := "{}"%string.
Definition keys : list string := ["key-1"%string].

Definition profile (u : Z) : CandidateProfile.t := CandidateProfile.mk u None None None [].

Definition st0 : Store :=
  mkStore ∅ (list_to_map [(1, profile 11); (2, profile 12); (3, profile 13);
                          (4, profile 14); (5, profile 15)]) ∅ ∅.

Definition jd : json :=
  JObj [("job_description"%string, JObj [("title"%string, JStr "Barista"%string)])].

(** Job 1, with a structured description. *)
Definition created : Endpoint Z :=
  employer_create_job job_description_to_markdown st0 100 "Barista" None (Some jd) 0.

(** Job 1, with a markdown description only. *)
Definition created_md : Endpoint Z :=
  employer_create_job job_description_to_markdown st0 100 "Barista" (Some "# Barista"%string) None 0.

(** The re-ranker's answer: the given profile ids, ranked in that order. *)
Definition ranking (ids : list Z) : Ranker.RankingOutput :=
  Ranker.enumerate_map (fun i k => Ranker.mkEntry k (Z.of_nat i + 1)) 0 ids.

Definition publish (st : Store) (ids : list Z) : Endpoint unit :=
  employer_publish_job token_urlsafe job_description_to_markdown json_dumps st 1 100 keys
    (fun _ => None) (fun _ => Some (ranking ids)) 0.

Definition complete_with (st : Store) (token transcript : string) (sc : Q) : Endpoint (option Q) :=
  interview_complete st token transcript keys (fun _ => Some sc) 0 5 6.

Definition complete (st : Store) (token : string) (sc : Q) : Store :=
  fst (complete_with st token "Interviewer: Tell me about espresso." sc).

Definition published : Endpoint unit := publish (fst created) [1; 2; 3; 4; 5].

(** Scores 90, 70, 85, 40, 95 for the sessions A..E (job candidates 1..5). *)
Definition interviewed : Store :=
  complete (complete (complete (complete (complete (fst published)
    "A" 90) "B" 70) "C" 85) "D" 40) "E" 95.

Definition finalized : Endpoint (list string) := employer_finalize_job interviewed 1 100.
Definition finalized_again : Endpoint (list string) :=
  employer_finalize_job (fst finalized) 1 100.
Definition republished : Endpoint unit := publish (fst finalized) [1; 2; 3; 4; 5].
Definition published_twice : Endpoint unit := publish (fst published) [1; 2; 3; 4; 5].

(** The re-ranker names profile 1 twice: job candidates 1 and 2 both belong
    to it. Session B (job candidate 2) is never completed. *)
Definition published_dup : Endpoint unit := publish (fst created) [1; 1; 2; 3; 4].
Definition interviewed_dup : Store :=
  complete (complete (complete (complete (fst published_dup)
    "A" 95) "C" 90) "D" 85) "E" 40.
Definition finalized_dup : Endpoint (list string) :=
  employer_finalize_job interviewed_dup 1 100.

(** Session A completed with a blank transcript. *)
Definition completed_blank : Endpoint (option Q) :=
  complete_with (fst published) "A" (String "009"%char "  "%string) 80.

(** A transcript of Python whitespace only: \x1c, NEL (133) and no-break
    space (160). *)
Definition blank_transcript : string :=
  String "028"%char (String "133"%char (String "160"%char EmptyString)).

(** In the run where profile 1 has two rows, session B (job candidate 2,
    the second row of profile 1) is completed with [blank_transcript]; the
    job is then finalized. *)
Definition completed_blank_dup : Endpoint (option Q) :=
  complete_with interviewed_dup "B" blank_transcript 80.
Definition finalized_blank_dup : Endpoint (list string) :=
  employer_finalize_job (fst completed_blank_dup) 1 100.

(** The markdown-only job published while the schema extraction fails. *)
Definition published_md : Endpoint unit :=
  employer_publish_job token_urlsafe job_description_to_markdown json_dumps (fst created_md) 1 100
    keys (fun _ => None) (fun _ => Some (ranking [1; 2])) 0.

(** The candidate of profile 1 (user 11) accepts job candidate 1. *)
Definition responded : Endpoint unit :=
  candidate_respond_to_interview (fst published) 1 11 true "1. Why coffee?".

(** Session A is started at time 7. *)
Definition started : Endpoint unit := interview_start (fst published) "A" 7.

Definition job_status (st : Store) : option Status := option_map Job.status (jobs st !! 1).

Definition selection (st : Store) : list (Z * Z * bool) :=
  List.map (fun '(k, jc) => (k, JobCandidate.candidate_profile_id jc, JobCandidate.selected_top_3 jc))
    (rows (job_candidates st)).

End Scenario.

(* ------------------------------------------------------------------ *)
(** ** Claims about the workflow engine *)

Import Workflow.

(** C5. [candidate_decision] is write-once: after a successful
    [candidate_respond_to_interview] the row holds the decision of that call;
    a second call by the same candidate on the same row fails with the 400
    conflict "Already responded to this interview", and any second call, by
    anyone, fails and commits nothing, so the stored decision stays the
    first one. *)
Theorem candidate_decision_write_once st jcid uid interested q st1 :
  candidate_respond_to_interview st jcid uid interested q = (st1, Ok tt) ->
  (exists jc1, job_candidates st1 !! jcid = Some jc1 /\
     JobCandidate.candidate_decision jc1 = Some (if interested then Interested else Rejected)) /\
  (forall interested' q',
     candidate_respond_to_interview st1 jcid uid interested' q'
     = (st1, Err (bad_request "Already responded to this interview"))) /\
  (forall uid' interested' q', exists e,
     candidate_respond_to_interview st1 jcid uid' interested' q' = (st1, Err e)).
Proof.
  intro H.
  destruct (WorkflowFacts.respond_ok_store _ _ _ _ _ _ H)
    as (pk & p & jc & Hsel & Hpk & Hj & Hd & Hjcs & Hprof).
  set (jc1 := JobCandidate.with_decision jc (if interested then Interested else Rejected)).
  assert (Hj1 : job_candidates st1 !! jcid = Some jc1)
    by (rewrite Hjcs; apply lookup_insert_eq).
  assert (Hd1 : JobCandidate.candidate_decision jc1 <> None) by (simpl; congruence).
  split; [|split].
  - exists jc1. split; [exact Hj1|reflexivity].
  - intros interested' q'.
    apply (proj2 (WorkflowFacts.respond_decided st1 jcid jc1 uid interested' q' Hj1 Hd1) pk p);
      [rewrite Hprof; exact Hsel | exact Hpk].
  - intros uid' interested' q'.
    exact (proj1 (WorkflowFacts.respond_decided st1 jcid jc1 uid' interested' q' Hj1 Hd1)).
Qed.

(** C8. [interview_start] is idempotent: a successful first call finds one
    session, whose [started_at] is afterwards the time of that call if it was
    unset (and unchanged otherwise); a second call on the same token, at any
    time, succeeds and commits nothing. *)
Theorem interview_start_idempotent st token t1 t2 st1 :
  interview_start st token t1 = (st1, Ok tt) ->
  (exists ik inv inv1,
     sessions_with_token st token = [(ik, inv)] /\
     sessions_with_token st1 token = [(ik, inv1)] /\
     InterviewSession.started_at inv1
       = Some (match InterviewSession.started_at inv with Some s => s | None => t1 end)) /\
  interview_start st1 token t2 = (st1, Ok tt).
Proof.
  unfold interview_start at 1, guard. intro H.
  destruct (one_or_none (sessions_with_token st token)) as [[[ik inv]|]|] eqn:E; try congruence.
  apply Tables.one_or_none_some in E.
  destruct (InterviewSession.started_at inv) as [s|] eqn:Es.
  - injection H as <-. split.
    + exists ik, inv, inv. rewrite Es. repeat split; auto.
    + unfold interview_start, guard. rewrite E. simpl. rewrite Es. reflexivity.
  - injection H as <-.
    set (inv1 := InterviewSession.with_started_at inv t1).
    assert (E1 : sessions_with_token
                   (with_sessions st (<[ik := inv1]> (interview_sessions st))) token
                 = [(ik, inv1)]).
    { unfold sessions_with_token. simpl.
      apply (Tables.select_insert_single _ _ _ inv); [exact E|].
      unfold sessions_with_token in E.
      assert (Hin : In (ik, inv) [(ik, inv)]) by (now left).
      rewrite <- E in Hin. unfold select in Hin. apply filter_In in Hin.
      exact (proj2 Hin). }
    split.
    + exists ik, inv, inv1. rewrite Es. repeat split; auto.
    + unfold interview_start, guard. rewrite E1. reflexivity.
Qed.

(** C2 (the code disagrees). [employer_publish_job] does not check the job's
    status and [employer_finalize_job] does not either: in the run of
    [Scenario], job 1 goes draft, published, closed and then published again;
    publishing twice and finalizing twice also succeed. *)
Theorem job_status_not_monotonic :
  Scenario.job_status (fst Scenario.created) = Some Draft /\
  snd Scenario.published = Ok tt /\
  Scenario.job_status (fst Scenario.published) = Some Published /\
  snd Scenario.published_twice = Ok tt /\
  Scenario.job_status (fst Scenario.published_twice) = Some Published /\
  snd Scenario.finalized = Ok ["Candidate"; "Candidate"; "Candidate"]%string /\
  Scenario.job_status (fst Scenario.finalized) = Some Closed /\
  snd Scenario.finalized_again = Ok ["Candidate"; "Candidate"; "Candidate"]%string /\
  Scenario.job_status (fst Scenario.finalized_again) = Some Closed /\
  snd Scenario.republished = Ok tt /\
  Scenario.job_status (fst Scenario.republished) = Some Published.
Proof. repeat split; vm_compute; reflexivity. Qed.

(** C3 (counterexample). A draft job with a markdown description and no
    structured description, published while every model call fails: the
    request fails ([result] is [None], and ["error" in None] raises) and
    nothing is committed, so the job stays draft without a schema. *)
Theorem publish_extraction_failure_not_published :
  Scenario.published_md = (fst Scenario.created_md, Err TypeError) /\
  Scenario.job_status (fst Scenario.published_md) = Some Draft /\
  option_map Job.description_schema (jobs (fst Scenario.published_md) !! 1) = Some None /\
  job_candidates (fst Scenario.published_md) = ∅.
Proof. repeat split; vm_compute; reflexivity. Qed.

(** C3 (amended). For a job of the caller with no truthy structured
    description and a non-blank markdown description, when the schema
    extraction fails [employer_publish_job] ends in an error and commits
    nothing: the job keeps its status and its missing schema, and no
    [JobCandidate] or session is created. *)
Theorem employer_publish_job_extraction_failure token_urlsafe to_md dumps st job_id user_id
    keys llm_jd llm_rank n job :
  find_job st job_id user_id = Some job ->
  opt_truthy json_truthy (Job.description_schema job) = false ->
  PyStr.truthy (PyStr.strip (match Job.description_md job with Some m => m | None => EmptyString end))
    = true ->
  fst (job_description_generate_schema keys llm_jd n) = None ->
  exists e, employer_publish_job token_urlsafe to_md dumps st job_id user_id keys llm_jd llm_rank n
            = (st, Err e).
Proof.
  intros Hj Hs Hmd Hg. unfold employer_publish_job. rewrite Hj, Hs, Hmd. simpl.
  destruct (job_description_generate_schema keys llm_jd n) as [r n1]. simpl in Hg. subst r.
  simpl. eauto.
Qed.

Lemma employer_publish_job_extraction_failure_witness :
  find_job (fst Scenario.created_md) 1 100
    = Some (Job.mk 100 "Barista" (Some "# Barista"%string) None Draft 0) /\
  exists e, employer_publish_job Scenario.token_urlsafe Scenario.job_description_to_markdown
              Scenario.json_dumps (fst Scenario.created_md) 1 100 Scenario.keys
              (fun _ => None) (fun _ => Some (Scenario.ranking [1; 2])) 0
            = (fst Scenario.created_md, Err e).
Proof.
  split; [vm_compute; reflexivity|].
  apply (employer_publish_job_extraction_failure _ _ _ _ _ _ _ _ _ _
           (Job.mk 100 "Barista" (Some "# Barista"%string) None Draft 0));
    vm_compute; reflexivity.
Defined.

Lemma candidate_decision_write_once_witness :
  candidate_respond_to_interview (fst Scenario.published) 1 11 true "1. Why coffee?"
    = (fst Scenario.responded, Ok tt) /\
  candidate_respond_to_interview (fst Scenario.responded) 1 11 false EmptyString
    = (fst Scenario.responded, Err (bad_request "Already responded to this interview")).
Proof.
  assert (H : candidate_respond_to_interview (fst Scenario.published) 1 11 true "1. Why coffee?"
                = (fst Scenario.responded, Ok tt)) by (vm_compute; reflexivity).
  split; [exact H|].
  exact (proj1 (proj2 (candidate_decision_write_once _ _ _ _ _ _ H)) false EmptyString).
Defined.

Lemma interview_start_idempotent_witness :
  interview_start (fst Scenario.published) "A" 7 = (fst Scenario.started, Ok tt) /\
  interview_start (fst Scenario.started) "A" 9 = (fst Scenario.started, Ok tt).
Proof.
  assert (H : interview_start (fst Scenario.published) "A" 7 = (fst Scenario.started, Ok tt))
    by (vm_compute; reflexivity).
  split; [exact H|].
  exact (proj2 (interview_start_idempotent _ _ _ 9 _ H)).
Defined.

(** C6 (counterexample). The re-ranker names profile 1 twice, so job
    candidates 1 and 2 share it. Job candidate 2 never completes its
    interview and is not in the top 3 of [employer_finalize_job], yet ends
    with [selected_top_3] set, because the selection is by profile id. *)
Theorem finalize_selects_unqualified_duplicate :
  option_map JobCandidate.interview_completed_at (job_candidates Scenario.interviewed_dup !! 2)
    = Some None /\
  option_map JobCandidate.candidate_profile_id (job_candidates Scenario.interviewed_dup !! 2)
    = Some 1 /\
  List.map fe_job_candidate_id (top_3 (finalize_payload Scenario.interviewed_dup 1)) = [1; 3; 4] /\
  snd Scenario.finalized_dup = Ok ["Candidate"; "Candidate"; "Candidate"]%string /\
  Scenario.selection (fst Scenario.finalized_dup)
    = [(1, 1, true); (2, 1, true); (3, 2, true); (4, 3, true); (5, 4, false)].
Proof. repeat split; vm_compute; reflexivity. Qed.

(** C6 (amended). A successful [employer_finalize_job] orders the qualifying
    entries by score, [None] read as 0, highest first (a reordering of them,
    each before all that score lower), takes the first 3 (fewer if fewer
    qualify), and sets [selected_top_3] on every row of the job to whether
    the row's profile is the profile of one of those 3; other rows are left
    as they were. A second finalize succeeds with the same answer and leaves
    the rows as they are. In the run of [Scenario] with scores 90, 70, 85,
    40, 95 for job candidates 1..5 (one per profile), exactly those scoring
    95, 90 and 85 end selected. *)
Theorem employer_finalize_job_selection st j u st1 names :
  employer_finalize_job st j u = (st1, Ok names) ->
  finalize_payload st j <> [] /\
  sorted_by_score (finalize_payload st j) ≡ₚ finalize_payload st j /\
  StronglySorted FinalizeFacts.score_ge (sorted_by_score (finalize_payload st j)) /\
  length (top_3 (finalize_payload st j)) = Nat.min 3 (length (finalize_payload st j)) /\
  (forall a b, In a (top_3 (finalize_payload st j)) ->
     In b (skipn 3 (sorted_by_score (finalize_payload st j))) -> FinalizeFacts.score_ge a b) /\
  (forall k, job_candidates st1 !! k
     = (fun jc => if JobCandidate.job_id jc =? j
                  then JobCandidate.with_selected jc
                         (memZ (JobCandidate.candidate_profile_id jc)
                            (List.map fe_profile_id (top_3 (finalize_payload st j))))
                  else jc) <$> job_candidates st !! k) /\
  (exists st2, employer_finalize_job st1 j u = (st2, Ok names) /\
               job_candidates st2 = job_candidates st1) /\
  List.map (fun '(k, jc) => (k, JobCandidate.score jc)) (rows (job_candidates Scenario.interviewed))
    = [(1, Some 90%Q); (2, Some 70%Q); (3, Some 85%Q); (4, Some 40%Q); (5, Some 95%Q)] /\
  Scenario.selection (fst Scenario.finalized)
    = [(1, 1, true); (2, 2, false); (3, 3, true); (4, 4, false); (5, 5, true)].
Proof.
  intro H.
  destruct (FinalizeFacts.finalize_ok _ _ _ _ _ H) as (job & Ej & Hne & Hn & Hst1).
  split; [exact Hne|]. split; [apply FinalizeFacts.sorted_by_score_perm|].
  split; [apply FinalizeFacts.sorted_by_score_sorted|].
  split.
  { unfold top_3. rewrite length_firstn.
    now rewrite (Permutation_length (FinalizeFacts.sorted_by_score_perm _)). }
  split; [apply FinalizeFacts.top_3_dominates|].
  split.
  { intro k. rewrite Hst1. simpl. rewrite FinalizeFacts.mark_selected_fmap, lookup_fmap.
    reflexivity. }
  split; [exact (FinalizeFacts.finalize_twice _ _ _ _ _ H)|].
  split; vm_compute; reflexivity.
Qed.

Lemma employer_finalize_job_selection_witness :
  employer_finalize_job Scenario.interviewed 1 100 = (fst Scenario.finalized, Ok ["Candidate"; "Candidate"; "Candidate"]%string) /\
  exists st2, employer_finalize_job (fst Scenario.finalized) 1 100 = (st2, Ok ["Candidate"; "Candidate"; "Candidate"]%string) /\
              job_candidates st2 = job_candidates (fst Scenario.finalized).
Proof.
  assert (H : employer_finalize_job Scenario.interviewed 1 100
              = (fst Scenario.finalized, Ok ["Candidate"; "Candidate"; "Candidate"]%string)) by (vm_compute; reflexivity).
  split; [exact H|].
  exact (proj1 (proj2 (proj2 (proj2 (proj2 (proj2 (proj2
           (employer_finalize_job_selection _ _ _ _ _ H)))))))).
Defined.

(** C10 (counterexample). The re-ranker names profile 1 twice, so job
    candidates 1 and 2 share it. Session B (job candidate 2) is completed
    with a transcript of Python whitespace only (\x1c, NEL, no-break
    space): it stores no transcript and sets [ended_at] and
    [interview_completed_at]; job candidate 2 is not in the top 3 of
    [employer_finalize_job], yet ends with [selected_top_3] set, through
    the qualifying row of the same profile. *)
Theorem interview_complete_blank_still_selected :
  snd Scenario.completed_blank_dup = Ok (Some 80%Q) /\
  PyStr.strip Scenario.blank_transcript = EmptyString /\
  List.map (fun '(k, inv) => (k, InterviewSession.job_candidate_id inv,
                              InterviewSession.transcript inv, InterviewSession.ended_at inv))
    (sessions_with_token (fst Scenario.completed_blank_dup) "B") = [(2, 2, None, Some 5)] /\
  option_map (fun jc => (JobCandidate.candidate_profile_id jc, JobCandidate.interview_completed_at jc))
    (job_candidates (fst Scenario.completed_blank_dup) !! 2) = Some (1, Some 6) /\
  List.map fe_job_candidate_id (top_3 (finalize_payload (fst Scenario.completed_blank_dup) 1))
    = [1; 3; 4] /\
  snd Scenario.finalized_blank_dup = Ok ["Candidate"; "Candidate"; "Candidate"]%string /\
  Scenario.selection (fst Scenario.finalized_blank_dup)
    = [(1, 1, true); (2, 1, true); (3, 2, true); (4, 3, true); (5, 4, false)].
Proof. repeat split; vm_compute; reflexivity. Qed.

(** C10 (amended). Completing an interview with a transcript that is empty
    or whitespace-only as Python's [str.strip] reads it (sessions being
    unique per job candidate, as the column is declared) stores no
    transcript, [None], and still sets [ended_at] and
    [interview_completed_at]. The row never enters the payload of
    [employer_finalize_job], so never its top 3, and a later completion of
    the same session is refused without any change. Its [selected_top_3]
    after a successful finalize of its job is set exactly when another
    entry of the top 3 has the row's profile; so when no other row of the
    job has that profile, the row ends unselected. *)
Theorem interview_complete_blank_transcript st token tr keys llm n t_end t_done st1 r :
  FinalizeFacts.unique_job_candidate_ids (interview_sessions st) = true ->
  PyStr.strip tr = EmptyString ->
  interview_complete st token tr keys llm n t_end t_done = (st1, Ok r) ->
  exists ik inv1 jc1,
    sessions_with_token st1 token = [(ik, inv1)] /\
    InterviewSession.transcript inv1 = None /\
    InterviewSession.ended_at inv1 = Some t_end /\
    job_candidates st1 !! InterviewSession.job_candidate_id inv1 = Some jc1 /\
    JobCandidate.interview_completed_at jc1 = Some t_done /\
    (forall j e, In e (finalize_payload st1 j) ->
       fe_job_candidate_id e <> InterviewSession.job_candidate_id inv1) /\
    (forall j e, In e (top_3 (finalize_payload st1 j)) ->
       fe_job_candidate_id e <> InterviewSession.job_candidate_id inv1) /\
    (forall u st2 names,
       employer_finalize_job st1 (JobCandidate.job_id jc1) u = (st2, Ok names) ->
       exists jc2,
         job_candidates st2 !! InterviewSession.job_candidate_id inv1 = Some jc2 /\
         (JobCandidate.selected_top_3 jc2 = true <->
          exists e, In e (top_3 (finalize_payload st1 (JobCandidate.job_id jc1))) /\
                    fe_job_candidate_id e <> InterviewSession.job_candidate_id inv1 /\
                    fe_profile_id e = JobCandidate.candidate_profile_id jc1) /\
         ((forall k jc, job_candidates st1 !! k = Some jc ->
             JobCandidate.job_id jc = JobCandidate.job_id jc1 ->
             JobCandidate.candidate_profile_id jc = JobCandidate.candidate_profile_id jc1 ->
             k = InterviewSession.job_candidate_id inv1) ->
          JobCandidate.selected_top_3 jc2 = false)) /\
    (forall tr' keys' llm' n' t1 t2, exists e,
       interview_complete st1 token tr' keys' llm' n' t1 t2 = (st1, Err e)).
Proof.
  intros Hu Htr H. unfold interview_complete at 1, guard in H.
  destruct (one_or_none (sessions_with_token st token)) as [[[ik inv]|]|] eqn:E; try discriminate.
  apply Tables.one_or_none_some in E.
  destruct (job_candidates st !! InterviewSession.job_candidate_id inv) as [jc|] eqn:Ejc;
    [|discriminate].
  destruct (JobCandidate.interview_completed_at jc) eqn:Ec; [discriminate|].
  destruct (jobs st !! JobCandidate.job_id jc), (candidate_profiles st !! JobCandidate.candidate_profile_id jc);
    try discriminate.
  rewrite Htr in H. injection H as <- _.
  set (sc := interview_score keys llm n).
  set (inv1 := InterviewSession.with_completion inv (PyStr.or_none EmptyString) t_end
                 (match sc with Some s => Some s | None => InterviewSession.score inv end)).
  set (jc1 := JobCandidate.with_completion jc
                (match sc with Some s => Some s | None => JobCandidate.score jc end) t_done).
  set (st1 := with_job_candidates (with_sessions st (<[ik := inv1]> (interview_sessions st)))
                (<[InterviewSession.job_candidate_id inv := jc1]> (job_candidates st))).
  assert (Hin : In (ik, inv) (sessions_with_token st token)) by (rewrite E; now left).
  unfold sessions_with_token, select in Hin. apply filter_In in Hin as [Hik Htok].
  apply Tables.in_rows in Hik.
  assert (E1 : sessions_with_token st1 token = [(ik, inv1)]).
  { unfold sessions_with_token. simpl.
    apply (Tables.select_insert_single _ _ _ inv); [exact E|exact Htok]. }
  assert (Hsel : select (fun _ x => InterviewSession.job_candidate_id x =? InterviewSession.job_candidate_id inv)
                   (<[ik := inv1]> (interview_sessions st)) = [(ik, inv1)])
    by (apply FinalizeFacts.select_unique_insert; auto).
  assert (Hpay : forall j e, In e (finalize_payload st1 j) ->
            fe_job_candidate_id e <> InterviewSession.job_candidate_id inv1).
  { intros j e. apply (FinalizeFacts.payload_excludes _ _ _ ik inv1); [exact Hsel|reflexivity]. }
  assert (Hjc1 : job_candidates st1 !! InterviewSession.job_candidate_id inv1 = Some jc1)
    by (simpl; apply lookup_insert_eq).
  exists ik, inv1, jc1. split; [exact E1|]. split; [reflexivity|]. split; [reflexivity|].
  split; [exact Hjc1|]. split; [reflexivity|].
  split; [exact Hpay|]. split; [|split].
  - intros j e He. apply (Hpay j e). now apply FinalizeFacts.in_top_3.
  - intros u st2 names Hf.
    eexists. split; [exact (FinalizeFacts.finalize_row _ _ _ _ _ _ _ Hf Hjc1 eq_refl)|].
    cbn [JobCandidate.selected_top_3 JobCandidate.with_selected].
    split; [rewrite FinalizeFacts.memZ_map_spec; split|].
    + intros [e [He Hp]]. exists e. split; [exact He|]. split; [|exact Hp].
      apply (Hpay (JobCandidate.job_id jc1) e). now apply FinalizeFacts.in_top_3.
    + intros [e [He [_ Hp]]]. now exists e.
    + intro Honly.
      destruct (memZ _ _) eqn:Em; [|reflexivity]. exfalso.
      apply FinalizeFacts.memZ_map_spec in Em as [e [He Hp]].
      assert (He' := FinalizeFacts.in_top_3 _ _ He).
      destruct (FinalizeFacts.payload_row _ _ _ He') as [jc' [Hk [Hj Hp']]].
      apply (Hpay _ e He'). apply (Honly _ jc' Hk Hj). now rewrite Hp', Hp.
  - intros tr' keys' llm' n' t1 t2. unfold interview_complete, guard. rewrite E1. simpl.
    rewrite lookup_insert_eq. simpl. eauto.
Qed.

Lemma interview_complete_blank_transcript_witness :
  Scenario.completed_blank_dup = (fst Scenario.completed_blank_dup, Ok (Some 80%Q)) /\
  exists ik inv1 jc1,
    sessions_with_token (fst Scenario.completed_blank_dup) "B" = [(ik, inv1)] /\
    InterviewSession.transcript inv1 = None /\
    InterviewSession.ended_at inv1 = Some 5 /\
    job_candidates (fst Scenario.completed_blank_dup) !! InterviewSession.job_candidate_id inv1 = Some jc1 /\
    JobCandidate.interview_completed_at jc1 = Some 6.
Proof.
  assert (H : interview_complete Scenario.interviewed_dup "B" Scenario.blank_transcript
                Scenario.keys (fun _ => Some 80%Q) 0 5 6
              = (fst Scenario.completed_blank_dup, Ok (Some 80%Q))) by (vm_compute; reflexivity).
  split; [exact H|].
  destruct (interview_complete_blank_transcript Scenario.interviewed_dup "B"
              Scenario.blank_transcript Scenario.keys (fun _ => Some 80%Q) 0 5 6 _ _
              ltac:(vm_compute; reflexivity) ltac:(vm_compute; reflexivity) H)
    as (ik & inv1 & jc1 & H1 & H2 & H3 & H4 & H5 & _).
  exists ik, inv1, jc1. repeat split; assumption.
Defined.


(* ------------------------------------------------------------------ *)
(** ** [itertools.cycle] *)

Module PyCycle.

(** CPython's [cycleobject]: the source iterator while it is not exhausted
    ([it], the items it has left), the items drawn from it so far ([saved])
    and the replay position ([index]). *)
Record t (A : Type) := mk { it : option (list A); saved : list A; index : nat }.
Arguments mk {A} it saved index.
Arguments it {A} _.
Arguments saved {A} _.
Arguments index {A} _.

(** [itertools.cycle(l)] for a list [l]. *)
Definition cycle {A : Type} (l : list A) : t A := mk (Some l) [] 0%nat.

(** [next(c)]: first the source's items, each saved; once the source is
    exhausted, [saved[index]] with [index] wrapping to [0]. [None] is
    [StopIteration] (an empty source). *)
Definition next {A : Type} (c : t A) : option A * t A :=
  match it c with
  | Some (x :: r) => (Some x, mk (Some r) (saved c ++ [x]) (index c))
  | _ =>
      match saved c with
      | [] => (None, mk None [] (index c))
      | _ => (nth_error (saved c) (index c),
              mk None (saved c)
                 (if (List.length (saved c) <=? S (index c))%nat then 0%nat else S (index c)))
      end
  end.

(** The iterator after [n] calls of [next]. *)
Definition advance {A : Type} (n : nat) (c : t A) : t A :=
  Nat.iter n (fun c => snd (next c)) c.

End PyCycle.

(* ------------------------------------------------------------------ *)
(** ** common/llm.py : the API key pool and its rotation *)

Module KeyPool.
Import PyStr.

(** The module globals [_google_api_keys] and [_key_cycle]. *)
Record Globals := mkGlobals {
  google_api_keys : option (list string);
  key_cycle : option (PyCycle.t string) }.

(** Both unset when the module is imported. *)
Definition initial : Globals := mkGlobals None None.

(** The variables [GOOGLE_API_KEYS] and [GOOGLE_API_KEY] as [os.getenv]
    reads them at the time of the call, the empty string when unset. *)
Record Env := mkEnv { GOOGLE_API_KEYS : string; GOOGLE_API_KEY : string }.

(** [_get_google_api_keys]: the pool is read from the environment on the
    first call and cached from then on, an empty pool included. *)
Definition get_google_api_keys (env : Env) (g : Globals) : Globals * list string :=
  match google_api_keys g with
  | Some ks => (g, ks)
  | None =>
      let keys_raw := strip (GOOGLE_API_KEYS env) in
      let from_list :=
        if truthy keys_raw
        then Some (List.map strip (List.filter (fun k => truthy (strip k))
                                     (split_on ","%char keys_raw)))
        else None in
      let ks :=
        match from_list with
        | Some ((_ :: _) as l) => l
        | _ =>
            let single := strip (GOOGLE_API_KEY env) in
            if truthy single then [single] else []
        end in
      let cyc := match ks with [] => key_cycle g | _ => Some (PyCycle.cycle ks) end in
      (mkGlobals (Some ks) cyc, ks)
  end.

(** [_next_google_api_key] *)
Definition next_google_api_key (env : Env) (g : Globals) : Globals * option string :=
  let '(g1, keys) := get_google_api_keys env g in
  match keys, key_cycle g1 with
  | _ :: _, Some c =>
      let '(x, c') := PyCycle.next c in (mkGlobals (google_api_keys g1) (Some c'), x)
  | _, _ => (g1, None)
  end.

(** [get_llm]: the key the new client is built with, or [None] when it
    raises [ValueError] (no key). *)
Definition get_llm (env : Env) (g : Globals) : Globals * option string :=
  let '(g1, k) := next_google_api_key env g in
  match k with
  | Some key => if truthy key then (g1, Some key) else (g1, None)
  | None => (g1, None)
  end.

(** [invoke_with_retry]: both the construction and the call are inside the
    [try], and the retry builds a new client. [invoke i key] is the [i]-th
    call's outcome on a client holding [key] ([None]: it raised). Returns
    the keys the calls were made with and the outcome ([None]: raised). *)
Definition invoke_with_retry {R : Type} (env : Env) (invoke : nat -> string -> option R)
    (g : Globals) : Globals * list string * option R :=
  let retry (g1 : Globals) (tried : list string) :=
    let '(g2, k2) := get_llm env g1 in
    match k2 with
    | Some key2 => (g2, tried ++ [key2], invoke 1%nat key2)
    | None => (g2, tried, None)
    end in
  let '(g1, k1) := get_llm env g in
  match k1 with
  | Some key1 =>
      match invoke 0%nat key1 with
      | Some r => (g1, [key1], Some r)
      | None => retry g1 [key1]
      end
  | None => retry g1 []
  end.

(** The globals after [n] keys have been drawn under a fixed environment. *)
Definition draws (env : Env) (n : nat) : Globals :=
  Nat.iter n (fun g => fst (next_google_api_key env g)) initial.

End KeyPool.

(* ------------------------------------------------------------------ *)
(** ** resume_mastermind/utils.py : key manager, LLM parser, file tracker,
    skill extraction *)

Module ResumeUtils.
Import PyStr.
Import Workflow(json(..), json_truthy, json_get).

(** Exceptions these functions let escape. *)
Inductive Exc := TypeError | AttributeError | ValueError | StopIteration.

(** [for x in v] over a decoded JSON value: a list gives its items, a
    string its characters, a dict its keys; anything else is not iterable. *)
Definition py_iter (v : json) : option (list json) :=
  match v with
  | JArr l => Some l
  | JStr s => Some (List.map (fun c => JStr (String c EmptyString)) (list_ascii_of_string s))
  | JObj kvs => Some (List.map (fun kv => JStr (fst kv)) kvs)
  | _ => None
  end.

(** [k in d] for a dict. *)
Definition dict_has (k : string) (kvs : list (string * json)) : bool :=
  existsb (fun kv => String.eqb (fst kv) k) kvs.

(** [APIKeyManager.__init__] on the decoded [apikey.json]. *)
Definition api_key_manager (data : json) : Exc + PyCycle.t json :=
  let keys :=
    match data with
    | JObj kvs => if dict_has "apiKeys" kvs then json_get "apiKeys" data else None
    | JArr _ => Some data
    | _ => None
    end in
  match keys with
  | None => inl ValueError
  | Some k =>
      if negb (json_truthy k) then inl ValueError
      else match py_iter k with
           | Some l => inr (PyCycle.cycle l)
           | None => inl TypeError
           end
  end.

(** [APIKeyManager.get_key] *)
Definition get_key (c : PyCycle.t json) : Exc + (json * PyCycle.t json) :=
  let '(x, c') := PyCycle.next c in
  match x with Some k => inr (k, c') | None => inl StopIteration end.

(** One [generate_content] attempt of [parse_with_llm]: the decoded answer,
    the [SIGALRM] timeout, or any other failure (an API error or an answer
    that is not JSON). *)
Inductive Attempt := Answer (j : json) | Timeout | Failure.

(** [int] arithmetic on a JSON value: [bool] is an [int]. *)
Definition py_int (v : json) : option Z :=
  match v with
  | JNum z => Some z
  | JBool b => Some (if b then 1 else 0)
  | _ => None
  end.

(** The [for attempt in range(...)] loop: [k] attempts left, [i] the
    attempt number. [key_manager] is [None] when none was passed
    ([None.get_key()] raises). *)
Fixpoint attempts (attempt : nat -> Attempt) (k i : nat) (key_manager : option (PyCycle.t json))
    : Exc + (option json * option (PyCycle.t json)) :=
  match k with
  | O => inr (None, key_manager)
  | S k' =>
      match key_manager with
      | None => inl AttributeError
      | Some km =>
          match get_key km with
          | inl e => inl e
          | inr (_, km') =>
              match attempt i with
              | Answer j => inr (Some j, Some km')
              | Timeout => attempts attempt k' (S i) (Some km')
              | Failure => inr (None, Some km')
              end
          end
      end
  end.

(** [parse_with_llm(text, retries, timeout_sec, key_manager, SCHEMA_JSON)].
    A schema whose [properties] name [resume] or [job_description] takes
    the structured route. On the [job_description] route [structured] is
    the field the structured call returns ([None]: the call raised). On the
    [resume] route the call returns a [ResumeExtractOutput], which has no
    attribute [resume]: [result.resume] raises [AttributeError], which is
    caught, and the route returns [None] whatever the call gives. Returns
    the parse and the key manager's state. *)
Definition parse_with_llm (retries : json) (key_manager : option (PyCycle.t json))
    (SCHEMA_JSON : option json) (structured : option json) (attempt : nat -> Attempt)
    : Exc + (option json * option (PyCycle.t json)) :=
  let route : Exc + option string :=
    match SCHEMA_JSON with
    | Some s =>
        if json_truthy s then
          match s with
          | JObj _ =>
              let props := match json_get "properties" s with
                           | Some p => if json_truthy p then p else JObj []
                           | None => JObj []
                           end in
              match props with
              | JObj pk =>
                  if dict_has "resume" pk then inr (Some "resume"%string)
                  else if dict_has "job_description" pk then inr (Some "job_description"%string)
                  else inr None
              | _ => inl AttributeError
              end
          | _ => inl AttributeError
          end
        else inr None
    | None => inr None
    end in
  match route with
  | inl e => inl e
  | inr (Some field) =>
      if String.eqb field "resume" then inr (None, key_manager)
      else inr (option_map (fun r => JObj [(field, r)]) structured, key_manager)
  | inr None =>
      match py_int retries with
      | None => inl TypeError
      | Some r => attempts attempt (Z.to_nat (r + 1)) 0%nat key_manager
      end
  end.

(** A [ProcessedFileTracker] record and the tracker's dict, in insertion
    order. [_save] writes the dict to the tracker file; the file is not
    modelled. *)
Record Entry := mkEntry { parsed : option json; timestamp : option string }.
Definition Tracker := list (string * Entry).

(** [d[k] = v] on a dict: an existing key keeps its place. *)
Fixpoint dict_set {V : Type} (k : string) (v : V) (d : list (string * V)) : list (string * V) :=
  match d with
  | [] => [(k, v)]
  | (k', v') :: d' => if String.eqb k' k then (k, v) :: d' else (k', v') :: dict_set k v d'
  end.

Definition dict_get {V : Type} (k : string) (d : list (string * V)) : option V :=
  option_map snd (List.find (fun kv => String.eqb (fst kv) k) d).

Definition is_processed (filename : string) (t : Tracker) : bool :=
  existsb (fun kv => String.eqb (fst kv) filename) t.

(** [mark_processed]; [mtime] is [str(Path(filename).stat().st_mtime)] when
    the file exists. *)
Definition mark_processed (filename : string) (parsed_data : option json)
    (mtime : option string) (t : Tracker) : Tracker :=
  dict_set filename
    (mkEntry (match parsed_data with
              | Some d => if json_truthy d then Some d else None
              | None => None
              end) mtime) t.

Definition get_parsed_data (filename : string) (t : Tracker) : option json :=
  match dict_get filename t with Some e => parsed e | None => None end.

(** [parse_and_index_jd]: it calls [parse_with_llm(jd_text, SCHEMA_JSON)],
    so the schema is passed as [retries] and neither a key manager nor a
    schema is. *)
Definition parse_and_index_jd (jd_filename : string) (jd_tracker : Tracker) (SCHEMA_JSON : json)
    (mtime : option string) (structured : option json) (attempt : nat -> Attempt)
    : Exc + (option json * Tracker) :=
  if is_processed jd_filename jd_tracker
  then inr (get_parsed_data jd_filename jd_tracker, jd_tracker)
  else
    match parse_with_llm SCHEMA_JSON None None structured attempt with
    | inl e => inl e
    | inr (Some d, _) => inr (Some d, mark_processed jd_filename (Some d) mtime jd_tracker)
    | inr (None, _) => inr (None, jd_tracker)
    end.

(** [list(set(xs))]: a set's iteration order is left unspecified by Python;
    every statement below is about membership only. *)
Definition set_list (xs : list string) : list string := nodup string_dec xs.

(** The strings of a list with a non-blank [strip()], in order. *)
Definition nonblank_strs (l : list json) : list string :=
  flat_map (fun v => match v with
                     | JStr s => if truthy (strip s) then [s] else []
                     | _ => []
                     end) l.

(** [list(set(s.strip().lower() for s in skills if s.strip()))] *)
Definition normalized_set (skills : list string) : list string :=
  set_list (List.map (fun s => lower (strip s)) (List.filter (fun s => truthy (strip s)) skills)).

(** [extract_skills]; [None] is a [None] argument. *)
Definition extract_skills (parsed_json : option (list (string * json))) : Exc + list string :=
  match parsed_json with
  | None | Some [] => inr []
  | Some d =>
      if dict_has "resume" d then
        match json_get "resume" (JObj d) with
        | Some (JObj r) =>
            let skills := match json_get "skills" (JObj r) with
                          | Some (JArr l) => nonblank_strs l
                          | _ => []
                          end in
            inr (normalized_set skills)
        | _ => inl AttributeError
        end
      else if negb (dict_has "skills" d) then inr []
      else
        let skills :=
          match json_get "skills" (JObj d) with
          | Some (JArr l) => nonblank_strs l
          | Some (JObj kvs) =>
              flat_map (fun kv => match snd kv with JArr l => nonblank_strs l | _ => [] end) kvs
          | _ => []
          end in
        inr (normalized_set skills)
  end.

(** [for s in (d.get(key) or [])] *)
Definition iter_field (key : string) (d : json) : option (list json) :=
  match json_get key d with
  | Some v => if json_truthy v then py_iter v else Some []
  | None => Some []
  end.

(** [extract_jd_skills] *)
Definition extract_jd_skills (jd_schema : option (list (string * json))) : Exc + list string :=
  let schema := match jd_schema with Some d => JObj d | None => JNull end in
  let jd := match json_get "job_description"
                    (match jd_schema with Some d => JObj d | None => JObj [] end) with
            | Some v => if json_truthy v then v else schema
            | None => schema
            end in
  if negb (json_truthy jd) then inr []
  else
    match jd with
    | JObj _ =>
        let req := match json_get "requirements" jd with
                   | Some v => if json_truthy v then v else JObj []
                   | None => JObj []
                   end in
        match req with
        | JObj _ =>
            match iter_field "technical_skills" req, iter_field "soft_skills" req,
                  iter_field "certifications" req, iter_field "preferred_qualifications" jd with
            | Some a, Some b, Some c, Some p =>
                inr (set_list (List.map (fun s => lower (strip s))
                                (List.filter (fun s => truthy (strip s))
                                   (nonblank_strs (a ++ b ++ c ++ p)))))
            | _, _, _, _ => inl TypeError
            end
        | _ => inl AttributeError
        end
    | _ => inl AttributeError
    end.

End ResumeUtils.

(* ------------------------------------------------------------------ *)
(** ** exchange/main.py : the employer job portal and the candidate-facing
    interview endpoints *)

Module Portal.
Import PyStr Workflow.

Definition with_title (j : Job.t) (t : string) : Job.t :=
  Job.mk (Job.employer_id j) t (Job.description_md j) (Job.description_schema j)
    (Job.status j) (Job.created_at j).

(** [employer_get_job] *)
Definition employer_get_job (st : Store) (job_id user_id : Z) : Res Job.t :=
  match find_job st job_id user_id with
  | Some row => Ok row
  | None => Err (not_found "Job not found")
  end.

(** [employer_list_jobs]: the employer's jobs with their ids. *)
Definition employer_list_jobs (st : Store) (user_id : Z) : list (Z * Job.t) :=
  select (fun _ j => Job.employer_id j =? user_id) (jobs st).

Section Edit.
Variable job_description_to_markdown : json -> string.

(** [employer_update_job] *)
Definition employer_update_job (st : Store) (job_id user_id : Z) (title description_md : option string)
    (job_description : option json) : Endpoint Job.t :=
  match find_job st job_id user_id with
  | None => (st, Err (not_found "Job not found"))
  | Some row =>
      match Job.status row with
      | Draft =>
          let row1 := match title with Some t => with_title row t | None => row end in
          let row2 :=
            match job_description with
            | Some schema =>
                let schema' := match json_get "job_description" schema with
                               | Some _ => schema
                               | None => JObj [("job_description"%string, schema)]
                               end in
                Job.with_schema row1 (Some schema') (Some (job_description_to_markdown schema'))
            | None =>
                match description_md with
                | Some m => Job.with_schema row1 (Job.description_schema row1) (Some m)
                | None => row1
                end
            end in
          (with_jobs st (<[job_id := row2]> (jobs st)), Ok row2)
      | _ => (st, Err (bad_request "Only draft jobs can be edited."))
      end
  end.

End Edit.

(** [employer_reinvite_candidates]: the e-mail addresses the potential-match
    mail goes to (none sent when the list is empty). *)
Definition employer_reinvite_candidates (st : Store) (job_id user_id : Z) : Endpoint (list string) :=
  match find_job st job_id user_id with
  | None => (st, Err (not_found "Job not found"))
  | Some job =>
      match Job.status job with
      | Published =>
          let jc_list := select (fun _ jc => JobCandidate.job_id jc =? job_id) (job_candidates st) in
          let infos :=
            flat_map (fun '(_, jc) =>
                        match candidate_profiles st !! JobCandidate.candidate_profile_id jc with
                        | Some cp =>
                            match CandidateProfile.email cp with
                            | Some e => if truthy e then [e] else []
                            | None => []
                            end
                        | None => []
                        end) jc_list in
          (st, Ok infos)
      | _ => (st, Err (bad_request "Only published jobs can reinvite candidates."))
      end
  end.

(** [interview_join]: returns the job id, the job-candidate id and the
    questions. [questions_text] is what [interview_prepare_questions]
    answers when it is called. *)
Definition interview_join (st : Store) (token questions_text : string) : Endpoint (Z * Z * list string) :=
  if negb (truthy (strip token)) then (st, Err (bad_request "Token is required."))
  else
  guard st (one_or_none (sessions_with_token st token)) (fun found =>
  match found with
  | None => (st, Err (not_found "Invalid or expired interview link."))
  | Some (ik, inv) =>
  match job_candidates st !! InterviewSession.job_candidate_id inv with
  | None => (st, Err (not_found "Interview session not found."))
  | Some jc =>
  match JobCandidate.interview_completed_at jc with
  | Some _ => (st, Err (bad_request "This interview has already been completed."))
  | None =>
  match jobs st !! JobCandidate.job_id jc with
  | None => (st, Err (not_found "Job not found."))
  | Some _ =>
  match candidate_profiles st !! JobCandidate.candidate_profile_id jc with
  | None => (st, Err (not_found "Candidate not found."))
  | Some _ =>
      let ids := (JobCandidate.job_id jc, InterviewSession.job_candidate_id inv) in
      match InterviewSession.questions inv with
      | Some ((_ :: _) as qs) => (st, Ok (ids, firstn 10 (firstn 10 qs)))
      | _ =>
          let questions := parse_questions_from_agent (Some questions_text) in
          match questions with
          | [] => (st, Ok (ids, []))
          | _ => (with_sessions st (<[ik := InterviewSession.with_questions inv questions]>
                                      (interview_sessions st)),
                  Ok (ids, firstn 10 questions))
          end
      end
  end
  end
  end
  end
  end).

Definition nl : string := String "010"%char EmptyString.

(** The user message [interview_chat] sends: [None] is the 400 for a
    missing candidate message in a running conversation. *)
Definition chat_user_content (transcript_so_far : string) (candidate_message : option string)
    : option string :=
  let transcript := strip transcript_so_far in
  let candidate_message := strip (match candidate_message with Some m => m | None => EmptyString end) in
  if negb (truthy candidate_message) then
    if truthy transcript then None
    else Some "Begin the interview with a brief greeting and your first question. Respond only with the interviewer line, no prefix."%string
  else
    let new_line := ("Candidate: " ++ candidate_message)%string in
    let user_content := if truthy transcript then (transcript ++ nl ++ new_line)%string else new_line in
    Some (user_content ++ nl ++ nl ++
          "Respond as the interviewer with your next question or follow-up (only the interviewer line, no prefix).")%string.

(** [interview_chat]: [reply] answers the model call for a user message
    ([None]: it raised). Commits nothing. *)
Definition interview_chat (st : Store) (token transcript_so_far : string)
    (candidate_message : option string) (reply : string -> option string) : Endpoint string :=
  if negb (truthy (strip token)) then (st, Err (bad_request "Token is required."))
  else
  guard st (one_or_none (sessions_with_token st token)) (fun found =>
  match found with
  | None => (st, Err (not_found "Invalid or expired interview link."))
  | Some (_, inv) =>
  match job_candidates st !! InterviewSession.job_candidate_id inv with
  | None => (st, Err (bad_request "Interview already completed."))
  | Some jc =>
  match JobCandidate.interview_completed_at jc with
  | Some _ => (st, Err (bad_request "Interview already completed."))
  | None =>
  match jobs st !! JobCandidate.job_id jc,
        candidate_profiles st !! JobCandidate.candidate_profile_id jc with
  | Some _, Some _ =>
      match chat_user_content transcript_so_far candidate_message with
      | None => (st, Err (bad_request "Candidate message required."))
      | Some uc =>
          match reply uc with
          | Some r => (st, Ok (strip r))
          | None => (st, Err (HTTPException 500 "Failed to generate interviewer response."))
          end
      end
  | _, _ => (st, Err (not_found "Job or candidate not found."))
  end
  end
  end
  end).

(** An entry of [candidate_list_interviews]: job-candidate id, job id and
    the session's token. *)
Record Item := mkItem { item_job_candidate_id : Z; item_job_id : Z; item_token : option string }.

(** The [status] of a history entry. *)
Definition history_status (jc : JobCandidate.t) : string :=
  match JobCandidate.company_decision jc with
  | Some d =>
      if String.eqb d "placed" then "placed"
      else if String.eqb d "rejected" then "company_rejected"
      else match JobCandidate.candidate_decision jc with
           | Some Interested => "interested"
           | _ => "candidate_rejected"
           end
  | None =>
      match JobCandidate.candidate_decision jc with
      | Some Interested => "interested"
      | _ => "candidate_rejected"
      end
  end%string.

(** The rows of [select(JobCandidate, Job, InterviewSession).join(Job)
    .outerjoin(InterviewSession).where(candidate_profile_id == pk)
    .order_by(JobCandidate.id.desc())]. *)
Definition candidate_rows (st : Store) (pk : Z)
    : list (Z * JobCandidate.t * option InterviewSession.t) :=
  flat_map (fun '(jck, jc) =>
    match jobs st !! JobCandidate.job_id jc with
    | None => []
    | Some _ =>
        match select (fun _ inv => InterviewSession.job_candidate_id inv =? jck)
                (interview_sessions st) with
        | [] => [(jck, jc, None)]
        | invs => List.map (fun '(_, inv) => (jck, jc, Some inv)) invs
        end
    end)
    (List.rev (select (fun _ jc => JobCandidate.candidate_profile_id jc =? pk) (job_candidates st))).

Definition item_of (r : Z * JobCandidate.t * option InterviewSession.t) : Item :=
  let '(jck, jc, inv) := r in
  mkItem jck (JobCandidate.job_id jc) (option_map InterviewSession.interview_link_token inv).

(** [candidate_list_interviews]: the open list and the history with its
    statuses. *)
Definition candidate_list_interviews (st : Store) (user_id : Z)
    : Res (list Item * list (Item * string)) :=
  match one_or_none (select (fun _ p => CandidateProfile.user_id p =? user_id)
                       (candidate_profiles st)) with
  | Err e => Err e
  | Ok None => Ok ([], [])
  | Ok (Some (pk, _)) =>
      let rs := candidate_rows st pk in
      Ok (List.map item_of
            (List.filter (fun '(_, jc, _) =>
                            match JobCandidate.candidate_decision jc with None => true | Some _ => false end) rs),
          List.map (fun r => let '(_, jc, _) := r in (item_of r, history_status jc))
            (List.filter (fun '(_, jc, _) =>
                            match JobCandidate.candidate_decision jc with None => false | Some _ => true end) rs))
  end.

End Portal.


(* ------------------------------------------------------------------ *)
(** ** Facts about the string primitives *)

Module StrFacts.
Import PyStr.

(** The string is empty or starts with a non-space character. *)
Definition head_ns (s : string) : bool :=
  match s with String c _ => negb (is_space c) | EmptyString => true end.

(** [String.append] does not unfold under [simpl] once stdpp is loaded. *)
Lemma append_cons (c : ascii) (a b : string) : (String c a ++ b)%string = String c (a ++ b).
Proof. reflexivity. Qed.

Lemma append_nil_l (b : string) : (EmptyString ++ b)%string = b.
Proof. reflexivity. Qed.

Lemma string_app_assoc (a b c : string) : (a ++ (b ++ c))%string = ((a ++ b) ++ c)%string.
Proof. induction a as [|x a IH]; [reflexivity|]. rewrite !append_cons, IH. reflexivity. Qed.

Lemma append_nil_r (s : string) : (s ++ EmptyString)%string = s.
Proof. induction s as [|x s IH]; [reflexivity|]. rewrite append_cons, IH. reflexivity. Qed.

Lemma length_append (a b : string) : String.length (a ++ b) = (String.length a + String.length b)%nat.
Proof. induction a as [|x a IH]; [reflexivity|]. rewrite append_cons. simpl. now rewrite IH. Qed.

Lemma rev_str_app (s acc : string) : rev_str s acc = (rev_str s EmptyString ++ acc)%string.
Proof.
  revert acc. induction s as [|c s IH]; intro acc; simpl; [reflexivity|].
  rewrite (IH (String c acc)), (IH (String c EmptyString)).
  rewrite <- string_app_assoc. reflexivity.
Qed.

Lemma rev_str_length (s : string) : String.length (rev_str s EmptyString) = String.length s.
Proof.
  induction s as [|c s IH]; simpl; [reflexivity|].
  rewrite rev_str_app, length_append, IH. simpl. lia.
Qed.

Lemma rev_str_rev_str (s acc : string) :
  rev_str (rev_str s acc) EmptyString = (rev_str acc EmptyString ++ s)%string.
Proof.
  revert acc. induction s as [|c s IH]; intro acc; simpl.
  - rewrite append_nil_r. reflexivity.
  - rewrite IH. simpl. rewrite (rev_str_app acc (String c EmptyString)).
    rewrite <- string_app_assoc. reflexivity.
Qed.

Lemma rev_str_involutive (s : string) : rev_str (rev_str s EmptyString) EmptyString = s.
Proof. rewrite rev_str_rev_str. reflexivity. Qed.

Lemma lstrip_head (s : string) : head_ns (lstrip s) = true.
Proof.
  induction s as [|c s IH]; simpl; [reflexivity|].
  destruct (is_space c) eqn:E; [exact IH|simpl; rewrite E; reflexivity].
Qed.

Lemma lstrip_id (s : string) : head_ns s = true -> lstrip s = s.
Proof.
  destruct s as [|c s]; simpl; [reflexivity|].
  intro H. destruct (is_space c); [discriminate|reflexivity].
Qed.

Lemma head_ns_app (x y : string) : x <> EmptyString -> head_ns (x ++ y) = head_ns x.
Proof. destruct x; simpl; [congruence|reflexivity]. Qed.

Lemma rev_str_nonempty (s : string) : s <> EmptyString -> rev_str s EmptyString <> EmptyString.
Proof.
  intros H E. apply H. apply (f_equal String.length) in E.
  rewrite rev_str_length in E. destruct s; simpl in E; [reflexivity|discriminate].
Qed.

(** [lstrip] keeps a last character that is not a space. *)
Lemma lstrip_last (v : string) :
  head_ns (rev_str v EmptyString) = true -> head_ns (rev_str (lstrip v) EmptyString) = true.
Proof.
  induction v as [|c v IH]; simpl; [auto|].
  destruct (is_space c) eqn:E; [|simpl; auto].
  intro H. apply IH. rewrite rev_str_app in H.
  destruct v as [|c' v'].
  - simpl in H. rewrite E in H. discriminate.
  - rewrite head_ns_app in H; [exact H|]. apply rev_str_nonempty. discriminate.
Qed.

(** [s.strip()] starts and ends with a non-space character. *)
Lemma strip_ends (s : string) :
  head_ns (strip s) = true /\ head_ns (rev_str (strip s) EmptyString) = true.
Proof.
  unfold strip. split.
  - set (u := lstrip (rev_str (lstrip s) EmptyString)).
    assert (Hu : head_ns (rev_str u EmptyString) = true).
    { apply lstrip_last. rewrite rev_str_involutive. apply lstrip_head. }
    exact Hu.
  - rewrite rev_str_involutive. apply lstrip_head.
Qed.

(** [s.strip().strip() == s.strip()] *)
Lemma strip_idem (s : string) : strip (strip s) = strip s.
Proof.
  destruct (strip_ends s) as [H1 H2].
  unfold strip at 1. rewrite (lstrip_id (strip s) H1), (lstrip_id _ H2).
  apply rev_str_involutive.
Qed.

Lemma lower_char_is_space (c : ascii) : is_space (lower_char c) = is_space c.
Proof. destruct c as [[] [] [] [] [] [] [] []]; reflexivity. Qed.

Lemma lower_char_idem (c : ascii) : lower_char (lower_char c) = lower_char c.
Proof. destruct c as [[] [] [] [] [] [] [] []]; reflexivity. Qed.

Lemma lower_idem (s : string) : lower (lower s) = lower s.
Proof. induction s as [|c s IH]; simpl; [reflexivity|]. now rewrite lower_char_idem, IH. Qed.

Lemma lower_lstrip (s : string) : lstrip (lower s) = lower (lstrip s).
Proof.
  induction s as [|c s IH]; simpl; [reflexivity|].
  rewrite lower_char_is_space. destruct (is_space c); [exact IH|reflexivity].
Qed.

Lemma lower_rev_str (s acc : string) : rev_str (lower s) (lower acc) = lower (rev_str s acc).
Proof.
  revert acc. induction s as [|c s IH]; intro acc; simpl; [reflexivity|].
  rewrite <- IH. reflexivity.
Qed.

Lemma lower_rev_str0 (s : string) : rev_str (lower s) EmptyString = lower (rev_str s EmptyString).
Proof. exact (lower_rev_str s EmptyString). Qed.

Lemma strip_lower (s : string) : strip (lower s) = lower (strip s).
Proof.
  unfold strip. rewrite lower_lstrip, lower_rev_str0, lower_lstrip, lower_rev_str0. reflexivity.
Qed.

Lemma truthy_lower (s : string) : truthy (lower s) = truthy s.
Proof. destruct s; reflexivity. Qed.

(** A skill normalized by [s.strip().lower()] is stripped and lower-case. *)
Lemma normalized_fixed (s : string) :
  strip (lower (strip s)) = lower (strip s) /\ lower (lower (strip s)) = lower (strip s).
Proof. split; [rewrite strip_lower, strip_idem|apply lower_idem]; reflexivity. Qed.

End StrFacts.

(* ------------------------------------------------------------------ *)
(** ** [itertools.cycle] replays its list round robin *)

Module CycleFacts.
Import PyCycle.

Lemma advance_S {A : Type} (n : nat) (c : t A) : advance (S n) c = snd (next (advance n c)).
Proof. reflexivity. Qed.

Lemma mod_succ (n m : nat) :
  (0 < m)%nat -> (S n mod m = if (m <=? S (n mod m))%nat then 0 else S (n mod m))%nat.
Proof.
  intro Hm.
  pose proof (Nat.div_mod_eq n m) as Hd. pose proof (Nat.mod_upper_bound n m ltac:(lia)) as Hb.
  destruct (Nat.leb_spec m (S (n mod m))) as [Hle|Hlt].
  - symmetry. apply (Nat.mod_unique (S n) m (S (n / m)) 0); lia.
  - symmetry. apply (Nat.mod_unique (S n) m (n / m) (S (n mod m))); lia.
Qed.

(** The iterator's state after [n] draws. *)
Definition state_after {A : Type} (l : list A) (n : nat) : t A :=
  if (n <=? List.length l)%nat then mk (Some (skipn n l)) (firstn n l) 0%nat
  else mk None l (n mod List.length l)%nat.

Lemma advance_cycle {A : Type} (l : list A) (n : nat) :
  l <> [] -> advance n (cycle l) = state_after l n.
Proof.
  intro Hl. assert (Hlen : (0 < List.length l)%nat) by (destruct l; simpl; [congruence|lia]).
  induction n as [|n IH]; [reflexivity|].
  rewrite advance_S, IH. unfold state_after.
  destruct (Nat.leb_spec n (List.length l)) as [Hn|Hn].
  - destruct (Nat.eq_dec n (List.length l)) as [Heq|Hne].
    + subst n. rewrite skipn_all, firstn_all.
      replace (S (List.length l) <=? List.length l)%nat with false by (symmetry; apply Nat.leb_gt; lia).
      destruct l as [|a l']; [congruence|].
      unfold next. cbn [it saved index snd].
      f_equal. rewrite (mod_succ (List.length (a :: l'))), Nat.Div0.mod_same by lia. reflexivity.
    + destruct (skipn n l) as [|x r] eqn:Es.
      { exfalso. apply (f_equal (@List.length A)) in Es.
        rewrite length_skipn in Es. simpl in Es. lia. }
      replace (S n <=? List.length l)%nat with true by (symmetry; apply Nat.leb_le; lia).
      unfold next. cbn [it saved index snd].
      f_equal.
      * f_equal. change (S n) with (1 + n)%nat. rewrite <- skipn_skipn, Es. reflexivity.
      * rewrite <- (firstn_skipn n l) at 2. rewrite Es.
        rewrite firstn_app, length_firstn.
        replace (S n - Nat.min n (List.length l))%nat with 1%nat by lia.
        rewrite firstn_firstn. replace (Nat.min (S n) n) with n by lia. reflexivity.
  - replace (S n <=? List.length l)%nat with false by (symmetry; apply Nat.leb_gt; lia).
    destruct l as [|a l']; [congruence|].
    unfold next. cbn [it saved index snd].
    f_equal. symmetry. apply mod_succ. exact Hlen.
Qed.

(** The [n]-th draw from [cycle(l)] is [l[n % len(l)]]. *)
Lemma next_advance_cycle {A : Type} (l : list A) (n : nat) :
  l <> [] -> fst (next (advance n (cycle l))) = nth_error l (n mod List.length l).
Proof.
  intro Hl. assert (Hlen : (0 < List.length l)%nat) by (destruct l; simpl; [congruence|lia]).
  rewrite advance_cycle by exact Hl. unfold state_after.
  destruct (Nat.leb_spec n (List.length l)) as [Hn|Hn].
  - destruct (Nat.eq_dec n (List.length l)) as [->|Hne].
    + rewrite skipn_all, firstn_all, Nat.Div0.mod_same by lia. simpl.
      destruct l; [congruence|reflexivity].
    + rewrite Nat.mod_small by lia.
      destruct (skipn n l) as [|x r] eqn:Es.
      * exfalso. apply (f_equal (@List.length A)) in Es. rewrite length_skipn in Es. simpl in Es. lia.
      * simpl. rewrite <- (firstn_skipn n l), Es.
        rewrite nth_error_app2 by (rewrite length_firstn; lia).
        rewrite length_firstn. replace (n - Nat.min n (List.length l))%nat with 0%nat by lia.
        reflexivity.
  - simpl. destruct l; [congruence|reflexivity].
Qed.

(** Consecutive positions of a list of at least two distinct items hold
    different items. *)
Lemma nth_mod_distinct {A : Type} (l : list A) (n : nat) :
  List.NoDup l -> (2 <= List.length l)%nat ->
  nth_error l (n mod List.length l) <> nth_error l (S n mod List.length l).
Proof.
  intros Hnd H2 E.
  assert (Hm : (n mod List.length l < List.length l)%nat) by (apply Nat.mod_upper_bound; lia).
  apply (proj1 (NoDup_nth_error l) Hnd) in E; [|exact Hm].
  rewrite mod_succ in E by lia.
  destruct (Nat.leb_spec (List.length l) (S (n mod List.length l))); lia.
Qed.

End CycleFacts.

(* ------------------------------------------------------------------ *)
(** ** The key pool of common/llm.py *)

Module KeyPoolFacts.
Import PyStr PyCycle KeyPool StrFacts CycleFacts.

Definition pool (env : Env) : list string := snd (get_google_api_keys env initial).

(** The first read caches the pool and starts its cycle when it is not
    empty. *)
Lemma first_read (env : Env) :
  get_google_api_keys env initial
  = (mkGlobals (Some (pool env))
       (match pool env with [] => None | _ => Some (PyCycle.cycle (pool env)) end), pool env).
Proof.
  unfold pool, get_google_api_keys. simpl.
  match goal with |- context [match ?k with [] => None | _ :: _ => _ end] => destruct k end;
  reflexivity.
Qed.

Lemma pool_clean (env : Env) : Forall (fun k => truthy k = true /\ strip k = k) (pool env).
Proof.
  unfold pool, get_google_api_keys. simpl.
  assert (Hsingle : Forall (fun k => truthy k = true /\ strip k = k)
                      (if truthy (strip (GOOGLE_API_KEY env)) then [strip (GOOGLE_API_KEY env)] else [])).
  { destruct (truthy (strip (GOOGLE_API_KEY env))) eqn:E; constructor; auto.
    split; [exact E|apply strip_idem]. }
  destruct (truthy (strip (GOOGLE_API_KEYS env))); [|exact Hsingle].
  destruct (List.map strip _) as [|k ks] eqn:Em; [exact Hsingle|].
  rewrite <- Em. apply List.Forall_forall. intros x Hx.
  apply in_map_iff in Hx. destruct Hx as [y [<- Hy]]. apply filter_In in Hy.
  split; [apply Hy|apply strip_idem].
Qed.

Lemma draws_S (env : Env) (n : nat) : draws env (S n) = fst (next_google_api_key env (draws env n)).
Proof. reflexivity. Qed.

(** While the pool is not empty, the [n]-th draw takes the cycle's [n]-th
    item. *)
Lemma draws_next (env : Env) (n : nat) :
  pool env <> [] ->
  next_google_api_key env (draws env n)
  = (mkGlobals (Some (pool env)) (Some (advance (S n) (PyCycle.cycle (pool env)))),
     fst (PyCycle.next (advance n (PyCycle.cycle (pool env))))).
Proof.
  intro Hne. induction n as [|n IH].
  - unfold draws. simpl. unfold next_google_api_key. rewrite first_read.
    destruct (pool env) as [|k ks] eqn:E; [congruence|]. cbn -[PyCycle.next].
    destruct (PyCycle.next (PyCycle.cycle (k :: ks))) as [x c'] eqn:En. reflexivity.
  - rewrite draws_S, IH. unfold next_google_api_key. simpl.
    destruct (pool env) as [|k ks] eqn:E; [congruence|].
    destruct (PyCycle.next (snd (PyCycle.next (advance n (PyCycle.cycle (k :: ks))))))
      as [x c'] eqn:En.
    reflexivity.
Qed.

(** [get_llm] at a reachable state: the next state and the key drawn. *)
Lemma get_llm_draws (env : Env) (n : nat) :
  pool env <> [] ->
  get_llm env (draws env n) = (draws env (S n), nth_error (pool env) (n mod List.length (pool env))).
Proof.
  intro Hne. unfold get_llm. rewrite draws_S, draws_next by exact Hne.
  rewrite next_advance_cycle by exact Hne. simpl.
  destruct (nth_error (pool env) (n mod List.length (pool env))) as [k|] eqn:Ek; [|reflexivity].
  apply nth_error_In in Ek.
  pose proof (proj1 (List.Forall_forall _ _) (pool_clean env) k Ek) as [Ht _].
  rewrite Ht. reflexivity.
Qed.

End KeyPoolFacts.

(* ------------------------------------------------------------------ *)
(** ** resume_mastermind/utils.py *)

Module ResumeUtilsFacts.
Import PyStr PyCycle ResumeUtils StrFacts CycleFacts.
Import Workflow(json(..), json_truthy, json_get).

(** What [list(set(s.strip().lower() for s in skills if s.strip()))]
    holds: exactly the normalized non-blank skills, each once. *)
Lemma normalized_set_in (xs : list string) (x : string) :
  In x (normalized_set xs) <-> exists s, In s xs /\ truthy (strip s) = true /\ x = lower (strip s).
Proof.
  unfold normalized_set, set_list. rewrite nodup_In, in_map_iff. split.
  - intros [s [<- Hs]]. apply filter_In in Hs. exists s. tauto.
  - intros [s [Hs [Ht ->]]]. exists s. split; [reflexivity|]. apply filter_In. tauto.
Qed.

Lemma normalized_set_clean (xs : list string) :
  List.NoDup (normalized_set xs) /\
  Forall (fun x => truthy x = true /\ strip x = x /\ lower x = x) (normalized_set xs).
Proof.
  split; [apply NoDup_nodup|].
  apply List.Forall_forall. intros x Hx. apply normalized_set_in in Hx.
  destruct Hx as [s [_ [Ht ->]]]. destruct (normalized_fixed s) as [H1 H2].
  rewrite truthy_lower. auto.
Qed.

(** Every successful [extract_skills] is a normalized set. *)
Lemma extract_skills_shape (pj : option (list (string * json))) (out : list string) :
  extract_skills pj = inr out -> out = [] \/ exists xs, out = normalized_set xs.
Proof.
  unfold extract_skills. intro H.
  destruct pj as [[|kv d]|]; [injection H as <-; auto| |injection H as <-; auto].
  destruct (dict_has "resume" (kv :: d)).
  - destruct (json_get "resume" (JObj (kv :: d))) as [[| | | | |r]|]; try discriminate.
    injection H as <-. eauto.
  - destruct (negb (dict_has "skills" (kv :: d))); injection H as <-; eauto.
Qed.

Lemma extract_jd_skills_shape (jd : option (list (string * json))) (out : list string) :
  extract_jd_skills jd = inr out -> out = [] \/ exists xs, out = normalized_set xs.
Proof.
  unfold extract_jd_skills. intro H.
  match type of H with
  | context [if negb (json_truthy ?j) then _ else _] => destruct (negb (json_truthy j))
  end; [injection H as <-; auto|].
  repeat match type of H with
         | context [match ?x with _ => _ end] => destruct x
         end; try discriminate.
  injection H as <-. right. eexists. reflexivity.
Qed.

Lemma dict_get_set_eq {V : Type} (k : string) (v : V) (d : list (string * V)) :
  dict_get k (dict_set k v d) = Some v.
Proof.
  unfold dict_get. induction d as [|[k' v'] d IH]; simpl.
  - rewrite String.eqb_refl. reflexivity.
  - destruct (String.eqb k' k) eqn:E; simpl.
    + rewrite String.eqb_refl. reflexivity.
    + rewrite E. exact IH.
Qed.

Lemma dict_get_set_neq {V : Type} (k k2 : string) (v : V) (d : list (string * V)) :
  k2 <> k -> dict_get k2 (dict_set k v d) = dict_get k2 d.
Proof.
  intro Hne. assert (Hf : String.eqb k k2 = false) by (apply String.eqb_neq; congruence).
  unfold dict_get. induction d as [|[k' v'] d IH]; simpl.
  - rewrite Hf. reflexivity.
  - destruct (String.eqb k' k) eqn:E; simpl.
    + apply String.eqb_eq in E. subst k'. rewrite Hf. reflexivity.
    + destruct (String.eqb k' k2); [reflexivity|exact IH].
Qed.

Lemma is_processed_get (f : string) (t : Tracker) :
  is_processed f t = match dict_get f t with Some _ => true | None => false end.
Proof.
  unfold is_processed, dict_get. induction t as [|[k e] t IH]; simpl; [reflexivity|].
  destruct (String.eqb k f); [reflexivity|exact IH].
Qed.

(** A non-empty source: every draw succeeds. *)
Lemma get_key_advance (ks : list json) (m : nat) :
  ks <> [] ->
  exists k, nth_error ks (m mod List.length ks) = Some k /\
    get_key (advance m (PyCycle.cycle ks)) = inr (k, advance (S m) (PyCycle.cycle ks)).
Proof.
  intro Hne. pose proof (next_advance_cycle ks m Hne) as Hn.
  destruct (nth_error ks (m mod List.length ks)) as [k|] eqn:E.
  - exists k. split; [reflexivity|]. unfold get_key.
    rewrite (advance_S m). destruct (PyCycle.next (advance m (PyCycle.cycle ks))) as [x c'].
    simpl in Hn. subst x. reflexivity.
  - exfalso. apply nth_error_None in E.
    assert (List.length ks <> 0%nat) by (destruct ks; simpl; [congruence|lia]).
    pose proof (Nat.mod_upper_bound m (List.length ks)). lia.
Qed.

(** The attempt loop on a key manager over a non-empty list: [k] timeouts
    draw [k] keys and give [None]. *)
Lemma attempts_timeouts (ks : list json) (attempt : nat -> Attempt) (k i m : nat) :
  ks <> [] -> (forall j, attempt j = Timeout) ->
  attempts attempt k i (Some (advance m (PyCycle.cycle ks)))
  = inr (None, Some (advance (m + k) (PyCycle.cycle ks))).
Proof.
  intros Hne Ht. revert i m. induction k as [|k IH]; intros i m; simpl.
  - rewrite Nat.add_0_r. reflexivity.
  - destruct (get_key_advance ks m Hne) as [x [_ Hg]]. rewrite Hg, Ht, IH.
    rewrite Nat.add_succ_r. reflexivity.
Qed.

Lemma nonblank_strs_in (l : list json) (s : string) :
  In s (nonblank_strs l) <-> In (JStr s) l /\ truthy (strip s) = true.
Proof.
  unfold nonblank_strs. rewrite in_flat_map. split.
  - intros [v [Hv Hs]]. destruct v; try contradiction.
    destruct (truthy (strip s0)) eqn:E; [|contradiction].
    destruct Hs as [<-|[]]. auto.
  - intros [Hv Ht]. exists (JStr s). rewrite Ht. simpl. auto.
Qed.

(** A one-character string of a non-space character is its own [strip()]. *)
Lemma strip_single (c : ascii) : is_space c = false -> strip (String c EmptyString) = String c EmptyString.
Proof. intro H. unfold strip. simpl. rewrite H. simpl. rewrite H. reflexivity. Qed.

End ResumeUtilsFacts.

(* ------------------------------------------------------------------ *)
(** ** Facts about the portal endpoints *)

Module PortalFacts.
Import PyStr Workflow Tables Portal.

(** [next_id] names no stored row. *)
Lemma next_id_fresh {A : Type} (m : gmap Z A) : m !! next_id m = None.
Proof.
  assert (H : forall k x, m !! k = Some x -> k <= map_fold (fun k _ acc => Z.max k acc) 0 m).
  { apply (map_fold_weak_ind (fun r m => forall k x, m !! k = Some x -> k <= r)).
    - intros k x Hk. rewrite lookup_empty in Hk. discriminate.
    - intros i x m' r Hi IH k y Hk. destruct (Z.eq_dec k i) as [->|Hne]; [lia|].
      rewrite lookup_insert_ne in Hk by congruence. specialize (IH k y Hk). lia. }
  unfold next_id. destruct (m !! _) as [x|] eqn:E; [|reflexivity].
  apply H in E. lia.
Qed.

Lemma find_job_some st j u job :
  find_job st j u = Some job -> jobs st !! j = Some job /\ Job.employer_id job = u.
Proof.
  unfold find_job. destruct (jobs st !! j) as [x|]; [|discriminate].
  destruct (Job.employer_id x =? u) eqn:E; [|discriminate].
  intro H. injection H as <-. split; [reflexivity|]. now apply Z.eqb_eq.
Qed.

Lemma select_in {A : Type} (p : Z -> A -> bool) (m : gmap Z A) k x :
  In (k, x) (select p m) <-> m !! k = Some x /\ p k x = true.
Proof. unfold select. rewrite filter_In, in_rows. reflexivity. Qed.

(** Storing a session back under its key, with its token unchanged, keeps
    it the only session with that token. *)
Lemma sessions_with_token_update st token ik inv inv' :
  sessions_with_token st token = [(ik, inv)] ->
  InterviewSession.interview_link_token inv' = InterviewSession.interview_link_token inv ->
  forall st', interview_sessions st' = <[ik := inv']> (interview_sessions st) ->
  sessions_with_token st' token = [(ik, inv')].
Proof.
  intros Hs Ht st' Hst'. unfold sessions_with_token in *. rewrite Hst'.
  apply (select_insert_single _ _ _ _ _ Hs).
  assert (Hin : In (ik, inv) (select (fun _ inv => String.eqb (InterviewSession.interview_link_token inv)
                                                     (strip token)) (interview_sessions st)))
    by (rewrite Hs; now left).
  apply select_in in Hin. rewrite Ht. exact (proj2 Hin).
Qed.

(** The rows [candidate_list_interviews] reads are job candidates of the
    profile. *)
Lemma candidate_rows_in st pk jck jc inv :
  In (jck, jc, inv) (candidate_rows st pk) ->
  job_candidates st !! jck = Some jc /\ JobCandidate.candidate_profile_id jc = pk.
Proof.
  unfold candidate_rows. intro H. apply in_flat_map in H. destruct H as [[k x] [Hin Hx]].
  apply in_rev, select_in in Hin. destruct Hin as [Hk Hp]. apply Z.eqb_eq in Hp.
  cbv beta iota in Hx.
  destruct (jobs st !! JobCandidate.job_id x); [|contradiction].
  destruct (select _ (interview_sessions st)) as [|s ss].
  - destruct Hx as [E|[]]. injection E as <- <- <-. auto.
  - apply in_map_iff in Hx. destruct Hx as [[k' inv'] [E _]]. injection E as <- <- <-. auto.
Qed.

Lemma Forall_firstn {A : Type} (P : A -> Prop) n (l : list A) : Forall P l -> Forall P (firstn n l).
Proof.
  revert l. induction n as [|n IH]; intros [|x l] H; simpl; auto.
  inversion H; subst. constructor; auto.
Qed.

(** A successful [employer_publish_job] leaves the job published and still
    owned by the caller. *)
Lemma publish_ok_find tu to_md dumps st j u keys llm_jd llm_rank n st1 :
  employer_publish_job tu to_md dumps st j u keys llm_jd llm_rank n = (st1, Ok tt) ->
  exists job, find_job st1 j u = Some job /\ Job.status job = Published.
Proof.
  unfold employer_publish_job. intro H.
  destruct (find_job st j u) as [job|] eqn:Ej; [|discriminate].
  apply find_job_some in Ej. destruct Ej as [_ Hu].
  assert (Hfin : forall st2 job1, Job.employer_id job1 = u ->
            find_job (with_jobs st2 (<[j := Job.with_status job1 Published]> (jobs st2))) j u
            = Some (Job.with_status job1 Published)).
  { intros st2 job1 Hj1. unfold find_job. simpl. rewrite lookup_insert_eq. simpl.
    rewrite Hj1, Z.eqb_refl. reflexivity. }
  match type of H with
  | context [guard _ ?g _] => destruct g as [[job1 n1]|e] eqn:Eg; [|discriminate]
  end.
  assert (Hj1 : Job.employer_id job1 = u).
  { revert Eg. repeat match goal with
                      | |- context [match ?x with _ => _ end] => destruct x
                      end; intro E; try discriminate; injection E as <- _; exact Hu. }
  unfold guard in H.
  repeat match type of H with
         | context [match ?x with _ => _ end] => destruct x; try discriminate
         end.
  injection H as <-. eexists. split; [apply Hfin; exact Hj1|reflexivity].
Qed.

End PortalFacts.


(* ------------------------------------------------------------------ *)
(** ** Further properties of the code *)

(** [_get_google_api_keys]: every key of the pool read from the
    environment is non-empty and carries no surrounding whitespace. *)
Theorem google_api_keys_clean (env : KeyPool.Env) :
  Forall (fun k => PyStr.truthy k = true /\ PyStr.strip k = k)
    (snd (KeyPool.get_google_api_keys env KeyPool.initial)).
Proof. exact (KeyPoolFacts.pool_clean env). Qed.

(** [_get_google_api_keys]: when [GOOGLE_API_KEYS] has no non-blank entry
    (unset, blank, or only commas and blanks), the pool is
    [GOOGLE_API_KEY.strip()] alone, or empty when that is blank too. *)
Theorem google_api_keys_single_fallback (env : KeyPool.Env) :
  Forall (fun k => PyStr.truthy (PyStr.strip k) = false)
    (PyStr.split_on ","%char (PyStr.strip (KeyPool.GOOGLE_API_KEYS env))) ->
  snd (KeyPool.get_google_api_keys env KeyPool.initial)
  = (if PyStr.truthy (PyStr.strip (KeyPool.GOOGLE_API_KEY env))
     then [PyStr.strip (KeyPool.GOOGLE_API_KEY env)] else []).
Proof.
  intro H. unfold KeyPool.get_google_api_keys. simpl.
  destruct (PyStr.truthy (PyStr.strip (KeyPool.GOOGLE_API_KEYS env))); [|reflexivity].
  rewrite Tables.filter_all_false; [reflexivity|].
  intros x Hx. exact (proj1 (List.Forall_forall _ _) H x Hx).
Qed.

Lemma google_api_keys_single_fallback_witness :
  snd (KeyPool.get_google_api_keys (KeyPool.mkEnv " , ,"%string " k1 "%string) KeyPool.initial)
  = ["k1"%string].
Proof.
  rewrite (google_api_keys_single_fallback (KeyPool.mkEnv " , ,"%string " k1 "%string));
    [reflexivity|].
  vm_compute. repeat constructor.
Defined.

(** [get_llm] rotates the keys round robin: under a fixed environment with
    a non-empty pool, the client built after [n] earlier ones holds the
    pool's key [n mod len(pool)]. *)
Theorem get_llm_round_robin (env : KeyPool.Env) (n : nat) :
  snd (KeyPool.get_google_api_keys env KeyPool.initial) <> [] ->
  snd (KeyPool.get_llm env (KeyPool.draws env n))
  = nth_error (snd (KeyPool.get_google_api_keys env KeyPool.initial))
      (n mod List.length (snd (KeyPool.get_google_api_keys env KeyPool.initial))).
Proof.
  intro Hne. rewrite (KeyPoolFacts.get_llm_draws env n Hne). reflexivity.
Qed.

Lemma get_llm_round_robin_witness :
  snd (KeyPool.get_llm (KeyPool.mkEnv "a,b,c"%string EmptyString) (KeyPool.draws (KeyPool.mkEnv "a,b,c"%string EmptyString) 4))
  = Some "b"%string.
Proof.
  rewrite (get_llm_round_robin (KeyPool.mkEnv "a,b,c"%string EmptyString) 4);
    [reflexivity|vm_compute; discriminate].
Defined.

(** [invoke_with_retry]: with a pool of at least two distinct keys, when
    the first call fails the retry is made on a new client holding the
    next key of the rotation, which differs from the failed one. *)
Theorem invoke_with_retry_switches_key {R : Type} (env : KeyPool.Env)
    (invoke : nat -> string -> option R) (n : nat) :
  List.NoDup (snd (KeyPool.get_google_api_keys env KeyPool.initial)) ->
  (2 <= List.length (snd (KeyPool.get_google_api_keys env KeyPool.initial)))%nat ->
  (forall k, invoke 0%nat k = None) ->
  exists k1 k2,
    snd (fst (KeyPool.invoke_with_retry env invoke (KeyPool.draws env n))) = [k1; k2] /\
    k1 <> k2 /\
    nth_error (snd (KeyPool.get_google_api_keys env KeyPool.initial))
      (n mod List.length (snd (KeyPool.get_google_api_keys env KeyPool.initial))) = Some k1 /\
    nth_error (snd (KeyPool.get_google_api_keys env KeyPool.initial))
      (S n mod List.length (snd (KeyPool.get_google_api_keys env KeyPool.initial))) = Some k2 /\
    snd (KeyPool.invoke_with_retry env invoke (KeyPool.draws env n)) = invoke 1%nat k2.
Proof.
  fold (KeyPoolFacts.pool env). intros Hnd H2 Hfail.
  assert (Hne : KeyPoolFacts.pool env <> []) by (destruct (KeyPoolFacts.pool env); simpl in H2; [lia|discriminate]).
  assert (Hsome : forall m, exists k, nth_error (KeyPoolFacts.pool env) (m mod List.length (KeyPoolFacts.pool env)) = Some k).
  { intro m.
    destruct (nth_error (KeyPoolFacts.pool env) (m mod List.length (KeyPoolFacts.pool env))) eqn:E; [eauto|].
    apply nth_error_None in E. pose proof (Nat.mod_upper_bound m (List.length (KeyPoolFacts.pool env))). lia. }
  destruct (Hsome n) as [k1 E1]. destruct (Hsome (S n)) as [k2 E2].
  exists k1, k2. unfold KeyPool.invoke_with_retry.
  rewrite (KeyPoolFacts.get_llm_draws env n Hne), E1, Hfail.
  rewrite (KeyPoolFacts.get_llm_draws env (S n) Hne), E2. simpl.
  split; [reflexivity|]. split; [|auto].
  intro Heq. subst k2. apply (CycleFacts.nth_mod_distinct _ n Hnd H2). congruence.
Qed.

Lemma invoke_with_retry_switches_key_witness :
  KeyPool.invoke_with_retry (KeyPool.mkEnv "a,b"%string EmptyString)
    (fun i k => if Nat.eqb i 0 then None else Some k) (KeyPool.draws (KeyPool.mkEnv "a,b"%string EmptyString) 1)
  = (KeyPool.draws (KeyPool.mkEnv "a,b"%string EmptyString) 3, ["b"; "a"]%string, Some "a"%string) /\
  exists k1 k2,
    snd (fst (KeyPool.invoke_with_retry (KeyPool.mkEnv "a,b"%string EmptyString)
                (fun i k => if Nat.eqb i 0 then None else Some k)
                (KeyPool.draws (KeyPool.mkEnv "a,b"%string EmptyString) 1))) = [k1; k2] /\ k1 <> k2.
Proof.
  split; [vm_compute; reflexivity|].
  destruct (invoke_with_retry_switches_key (KeyPool.mkEnv "a,b"%string EmptyString)
              (fun i k => if Nat.eqb i 0 then None else Some k) 1
              ltac:(vm_compute; repeat constructor; simpl; intuition discriminate)
              ltac:(vm_compute; lia) ltac:(reflexivity)) as (k1 & k2 & H1 & H2 & _).
  exists k1, k2. split; assumption.
Defined.

(** [_get_google_api_keys] caches an empty pool as well: when the first
    read finds no key, [get_llm] raises [ValueError], and it keeps raising
    on every later call whatever the environment then holds. *)
Theorem get_llm_no_key_is_final (env env' : KeyPool.Env) :
  snd (KeyPool.get_google_api_keys env KeyPool.initial) = [] ->
  snd (KeyPool.get_llm env KeyPool.initial) = None /\
  KeyPool.get_llm env' (fst (KeyPool.get_llm env KeyPool.initial))
  = (fst (KeyPool.get_llm env KeyPool.initial), None).
Proof.
  fold (KeyPoolFacts.pool env). intro H0.
  unfold KeyPool.get_llm, KeyPool.next_google_api_key. rewrite KeyPoolFacts.first_read, H0.
  split; reflexivity.
Qed.

Lemma get_llm_no_key_is_final_witness :
  KeyPool.get_llm (KeyPool.mkEnv "k1"%string EmptyString)
    (fst (KeyPool.get_llm (KeyPool.mkEnv " , "%string "  "%string) KeyPool.initial))
  = (fst (KeyPool.get_llm (KeyPool.mkEnv " , "%string "  "%string) KeyPool.initial), None).
Proof.
  exact (proj2 (get_llm_no_key_is_final (KeyPool.mkEnv " , "%string "  "%string)
                  (KeyPool.mkEnv "k1"%string EmptyString) ltac:(vm_compute; reflexivity))).
Defined.

(** [APIKeyManager]: built from a non-empty list of keys, given directly or
    under [apiKeys], [get_key] returns the keys round robin: the call after
    [n] earlier ones returns key [n mod len(keys)]. *)
Theorem api_key_manager_round_robin (data : Workflow.json) (ks : list Workflow.json) (n : nat) :
  (data = Workflow.JArr ks \/
   exists kvs, data = Workflow.JObj kvs /\ ResumeUtils.dict_has "apiKeys" kvs = true /\
               Workflow.json_get "apiKeys" data = Some (Workflow.JArr ks)) ->
  ks <> [] ->
  exists c k,
    ResumeUtils.api_key_manager data = inr c /\
    nth_error ks (n mod List.length ks) = Some k /\
    ResumeUtils.get_key (PyCycle.advance n c) = inr (k, PyCycle.advance (S n) c).
Proof.
  intros Hd Hne.
  assert (Hc : ResumeUtils.api_key_manager data = inr (PyCycle.cycle ks)).
  { destruct Hd as [->|[kvs [-> [Hh Hg]]]]; unfold ResumeUtils.api_key_manager.
    - destruct ks; [congruence|reflexivity].
    - rewrite Hh, Hg. destruct ks; [congruence|reflexivity]. }
  destruct (ResumeUtilsFacts.get_key_advance ks n Hne) as [k [Hk Hg]].
  exists (PyCycle.cycle ks), k. auto.
Qed.

Lemma api_key_manager_round_robin_witness :
  exists c k,
    ResumeUtils.api_key_manager (Workflow.JObj [("apiKeys"%string, Workflow.JArr [Workflow.JStr "k1"; Workflow.JStr "k2"])]) = inr c /\
    nth_error [Workflow.JStr "k1"; Workflow.JStr "k2"] (3 mod 2) = Some k /\
    ResumeUtils.get_key (PyCycle.advance 3 c) = inr (k, PyCycle.advance 4 c).
Proof.
  apply (api_key_manager_round_robin _ [Workflow.JStr "k1"; Workflow.JStr "k2"] 3).
  - right. eexists. split; [reflexivity|]. split; reflexivity.
  - discriminate.
Defined.

(** [APIKeyManager]: an [apiKeys] value that is a string instead of a list
    is accepted and iterated character by character, so [get_key] hands
    out one-character keys. *)
Theorem api_key_manager_string_keys (kvs : list (string * Workflow.json)) (s : string) (n : nat) :
  ResumeUtils.dict_has "apiKeys" kvs = true ->
  Workflow.json_get "apiKeys" (Workflow.JObj kvs) = Some (Workflow.JStr s) ->
  s <> EmptyString ->
  exists c ch,
    ResumeUtils.api_key_manager (Workflow.JObj kvs) = inr c /\
    nth_error (list_ascii_of_string s) (n mod String.length s) = Some ch /\
    ResumeUtils.get_key (PyCycle.advance n c)
    = inr (Workflow.JStr (String ch EmptyString), PyCycle.advance (S n) c).
Proof.
  intros Hh Hg Hs.
  set (ks := List.map (fun c => Workflow.JStr (String c EmptyString)) (list_ascii_of_string s)).
  assert (Hlen : List.length ks = String.length s).
  { unfold ks. rewrite length_map. clear. induction s as [|c s IH]; simpl; [reflexivity|]. now rewrite IH. }
  assert (Hne : ks <> []) by (intro E; apply (f_equal (@List.length _)) in E; rewrite Hlen in E;
                              destruct s; [congruence|discriminate]).
  assert (Hc : ResumeUtils.api_key_manager (Workflow.JObj kvs) = inr (PyCycle.cycle ks)).
  { unfold ResumeUtils.api_key_manager. rewrite Hh, Hg. destruct s; [congruence|reflexivity]. }
  destruct (ResumeUtilsFacts.get_key_advance ks n Hne) as [k [Hk Hgk]].
  rewrite Hlen in Hk. unfold ks in Hk. rewrite nth_error_map in Hk.
  destruct (nth_error (list_ascii_of_string s) (n mod String.length s)) as [ch|] eqn:E; [|discriminate].
  injection Hk as <-. exists (PyCycle.cycle ks), ch. auto.
Qed.

Lemma api_key_manager_string_keys_witness :
  exists c ch,
    ResumeUtils.api_key_manager (Workflow.JObj [("apiKeys"%string, Workflow.JStr "KEY")]) = inr c /\
    nth_error (list_ascii_of_string "KEY") (4 mod String.length "KEY") = Some ch /\
    ResumeUtils.get_key (PyCycle.advance 4 c)
    = inr (Workflow.JStr (String ch EmptyString), PyCycle.advance 5 c).
Proof.
  apply (api_key_manager_string_keys _ "KEY" 4); [reflexivity|reflexivity|discriminate].
Defined.

(** [parse_with_llm] without a structured schema, with [retries >= 0] and
    a key manager over a non-empty list: when every attempt times out it
    returns [None] after drawing exactly [retries + 1] keys; any other
    failure of the first attempt returns [None] at once, after one key. *)
Theorem parse_with_llm_retries (r : Z) (ks : list Workflow.json) (m : nat)
    (structured : option Workflow.json) (attempt : nat -> ResumeUtils.Attempt) :
  0 <= r -> ks <> [] ->
  ((forall i, attempt i = ResumeUtils.Timeout) ->
   ResumeUtils.parse_with_llm (Workflow.JNum r) (Some (PyCycle.advance m (PyCycle.cycle ks)))
     None structured attempt
   = inr (None, Some (PyCycle.advance (m + Z.to_nat (r + 1)) (PyCycle.cycle ks)))) /\
  (attempt 0%nat = ResumeUtils.Failure ->
   ResumeUtils.parse_with_llm (Workflow.JNum r) (Some (PyCycle.advance m (PyCycle.cycle ks)))
     None structured attempt
   = inr (None, Some (PyCycle.advance (S m) (PyCycle.cycle ks)))).
Proof.
  intros Hr Hne. split.
  - intro Ht. unfold ResumeUtils.parse_with_llm. simpl.
    apply ResumeUtilsFacts.attempts_timeouts; assumption.
  - intro Hf. unfold ResumeUtils.parse_with_llm. simpl.
    replace (Z.to_nat (r + 1)) with (S (Z.to_nat r)) by lia. simpl.
    destruct (ResumeUtilsFacts.get_key_advance ks m Hne) as [k [_ Hg]]. rewrite Hg, Hf.
    reflexivity.
Qed.

Lemma parse_with_llm_retries_witness :
  ResumeUtils.parse_with_llm (Workflow.JNum 3) (Some (PyCycle.advance 0 (PyCycle.cycle [Workflow.JStr "k1"])))
    None None (fun _ => ResumeUtils.Timeout)
  = inr (None, Some (PyCycle.advance 4 (PyCycle.cycle [Workflow.JStr "k1"]))).
Proof.
  exact (proj1 (parse_with_llm_retries 3 [Workflow.JStr "k1"] 0 None (fun _ => ResumeUtils.Timeout)
                  ltac:(lia) ltac:(discriminate)) (fun _ => eq_refl)).
Defined.

(** [parse_and_index_jd] passes its schema positionally, where
    [parse_with_llm] expects [retries]: for a JD not yet processed it
    raises [TypeError] ([dict + 1]) before any model call, so it never
    parses nor records a new JD. *)
Theorem parse_and_index_jd_schema_as_retries (f : string) (t : ResumeUtils.Tracker)
    (kvs : list (string * Workflow.json)) (mtime : option string)
    (structured : option Workflow.json) (attempt : nat -> ResumeUtils.Attempt) :
  ResumeUtils.is_processed f t = false ->
  ResumeUtils.parse_and_index_jd f t (Workflow.JObj kvs) mtime structured attempt
  = inl ResumeUtils.TypeError.
Proof. intro H. unfold ResumeUtils.parse_and_index_jd. rewrite H. reflexivity. Qed.

Lemma parse_and_index_jd_schema_as_retries_witness :
  ResumeUtils.parse_and_index_jd "jd.md" [] (Workflow.JObj [("type"%string, Workflow.JStr "object")])
    None None (fun _ => ResumeUtils.Answer (Workflow.JObj []))
  = inl ResumeUtils.TypeError.
Proof. apply parse_and_index_jd_schema_as_retries. reflexivity. Defined.

(** [ProcessedFileTracker]: after [mark_processed(f, d)], [f] is processed
    and [get_parsed_data(f)] returns [d] when it is truthy and [None]
    otherwise (an empty parse is not kept); every other file reads as
    before. *)
Theorem mark_processed_round_trip (f g : string) (d : option Workflow.json) (mtime : option string)
    (t : ResumeUtils.Tracker) :
  ResumeUtils.is_processed f (ResumeUtils.mark_processed f d mtime t) = true /\
  ResumeUtils.get_parsed_data f (ResumeUtils.mark_processed f d mtime t)
  = (match d with Some j => if Workflow.json_truthy j then Some j else None | None => None end) /\
  (g <> f ->
   ResumeUtils.is_processed g (ResumeUtils.mark_processed f d mtime t) = ResumeUtils.is_processed g t /\
   ResumeUtils.get_parsed_data g (ResumeUtils.mark_processed f d mtime t) = ResumeUtils.get_parsed_data g t).
Proof.
  unfold ResumeUtils.mark_processed, ResumeUtils.get_parsed_data.
  rewrite !ResumeUtilsFacts.is_processed_get, ResumeUtilsFacts.dict_get_set_eq.
  split; [reflexivity|]. split; [reflexivity|].
  intro Hne. rewrite !ResumeUtilsFacts.dict_get_set_neq by exact Hne. split; reflexivity.
Qed.

(** [parse_and_index_jd] on a JD already marked processed returns the
    stored parse ([None] for an empty one) without calling the model and
    leaves the tracker as it is. *)
Theorem parse_and_index_jd_cached (f : string) (d : Workflow.json) (mtime mtime' : option string)
    (t : ResumeUtils.Tracker) (schema : Workflow.json) (structured : option Workflow.json)
    (attempt : nat -> ResumeUtils.Attempt) :
  ResumeUtils.parse_and_index_jd f (ResumeUtils.mark_processed f (Some d) mtime t) schema mtime'
    structured attempt
  = inr (if Workflow.json_truthy d then Some d else None, ResumeUtils.mark_processed f (Some d) mtime t).
Proof.
  unfold ResumeUtils.parse_and_index_jd, ResumeUtils.get_parsed_data.
  rewrite ResumeUtilsFacts.is_processed_get. unfold ResumeUtils.mark_processed.
  rewrite ResumeUtilsFacts.dict_get_set_eq. reflexivity.
Qed.

(** [extract_skills]: whatever it returns is a list of distinct skills,
    each non-empty, stripped and lower-case. *)
Theorem extract_skills_normalized (pj : option (list (string * Workflow.json))) (out : list string) :
  ResumeUtils.extract_skills pj = inr out ->
  List.NoDup out /\
  Forall (fun x => PyStr.truthy x = true /\ PyStr.strip x = x /\ PyStr.lower x = x) out.
Proof.
  intro H. destruct (ResumeUtilsFacts.extract_skills_shape pj out H) as [->|[xs ->]].
  - split; constructor.
  - apply ResumeUtilsFacts.normalized_set_clean.
Qed.

Lemma extract_skills_normalized_witness :
  ResumeUtils.extract_skills
    (Some [("skills"%string, Workflow.JObj [("lang"%string, Workflow.JArr [Workflow.JStr " Go "; Workflow.JStr "GO"])])])
  = inr ["go"%string] /\ List.NoDup ["go"%string].
Proof.
  assert (H : ResumeUtils.extract_skills
    (Some [("skills"%string, Workflow.JObj [("lang"%string, Workflow.JArr [Workflow.JStr " Go "; Workflow.JStr "GO"])])])
    = inr ["go"%string]) by (vm_compute; reflexivity).
  split; [exact H|exact (proj1 (extract_skills_normalized _ _ H))].
Defined.

(** [extract_jd_skills]: whatever it returns is a list of distinct skills,
    each non-empty, stripped and lower-case. *)
Theorem extract_jd_skills_normalized (jd : option (list (string * Workflow.json))) (out : list string) :
  ResumeUtils.extract_jd_skills jd = inr out ->
  List.NoDup out /\
  Forall (fun x => PyStr.truthy x = true /\ PyStr.strip x = x /\ PyStr.lower x = x) out.
Proof.
  intro H. destruct (ResumeUtilsFacts.extract_jd_skills_shape jd out H) as [->|[xs ->]].
  - split; constructor.
  - apply ResumeUtilsFacts.normalized_set_clean.
Qed.

Lemma extract_jd_skills_normalized_witness :
  ResumeUtils.extract_jd_skills
    (Some [("job_description"%string, Workflow.JObj [("requirements"%string,
       Workflow.JObj [("technical_skills"%string, Workflow.JArr [Workflow.JStr "Rust "; Workflow.JStr " rust"])])])])
  = inr ["rust"%string] /\ List.NoDup ["rust"%string].
Proof.
  assert (H : ResumeUtils.extract_jd_skills
    (Some [("job_description"%string, Workflow.JObj [("requirements"%string,
       Workflow.JObj [("technical_skills"%string, Workflow.JArr [Workflow.JStr "Rust "; Workflow.JStr " rust"])])])])
    = inr ["rust"%string]) by (vm_compute; reflexivity).
  split; [exact H|exact (proj1 (extract_jd_skills_normalized _ _ H))].
Defined.

(** [extract_skills] on the resume schema keeps exactly the skills of
    [resume.skills]: [x] is returned iff it is [s.strip().lower()] for a
    string [s] of that list with a non-blank [strip()]. *)
Theorem extract_skills_resume_members (d r : list (string * Workflow.json)) (l : list Workflow.json)
    (x : string) :
  ResumeUtils.dict_has "resume" d = true ->
  Workflow.json_get "resume" (Workflow.JObj d) = Some (Workflow.JObj r) ->
  Workflow.json_get "skills" (Workflow.JObj r) = Some (Workflow.JArr l) ->
  exists out,
    ResumeUtils.extract_skills (Some d) = inr out /\
    (In x out <-> exists s, In (Workflow.JStr s) l /\ PyStr.truthy (PyStr.strip s) = true /\
                            x = PyStr.lower (PyStr.strip s)).
Proof.
  intros Hh Hr Hs. unfold ResumeUtils.extract_skills.
  destruct d as [|kv d']; [discriminate|]. rewrite Hh, Hr, Hs.
  eexists. split; [reflexivity|].
  rewrite ResumeUtilsFacts.normalized_set_in. split.
  - intros [s [Hin [Ht ->]]]. apply ResumeUtilsFacts.nonblank_strs_in in Hin. exists s. tauto.
  - intros [s [Hin [Ht ->]]]. exists s. split; [|auto].
    apply ResumeUtilsFacts.nonblank_strs_in. auto.
Qed.

Lemma extract_skills_resume_members_witness :
  exists out,
    ResumeUtils.extract_skills
      (Some [("resume"%string, Workflow.JObj [("skills"%string, Workflow.JArr [Workflow.JStr " SQL"; Workflow.JNum 3])])])
    = inr out /\
    (In "sql"%string out <-> exists s, In (Workflow.JStr s) [Workflow.JStr " SQL"; Workflow.JNum 3] /\
                            PyStr.truthy (PyStr.strip s) = true /\ "sql"%string = PyStr.lower (PyStr.strip s)).
Proof. apply extract_skills_resume_members with (r := [("skills"%string, Workflow.JArr [Workflow.JStr " SQL"; Workflow.JNum 3])]); reflexivity. Defined.

(** [extract_jd_skills]: a [technical_skills] that is a string instead of
    a list is iterated character by character, so each of its characters
    that is not whitespace for [str.isspace] becomes a one-letter skill,
    lower-cased. *)
Theorem extract_jd_skills_string_field (d j q : list (string * Workflow.json)) (s : string)
    (out : list string) (c : ascii) :
  Workflow.json_get "job_description" (Workflow.JObj d) = Some (Workflow.JObj j) -> j <> [] ->
  Workflow.json_get "requirements" (Workflow.JObj j) = Some (Workflow.JObj q) -> q <> [] ->
  Workflow.json_get "technical_skills" (Workflow.JObj q) = Some (Workflow.JStr s) ->
  ResumeUtils.extract_jd_skills (Some d) = inr out ->
  In c (list_ascii_of_string s) -> PyStr.is_space c = false ->
  In (String (PyStr.lower_char c) EmptyString) out.
Proof.
  intros Hjd Hj Hreq Hq Hts H Hc Hsp.
  unfold ResumeUtils.extract_jd_skills in H. rewrite Hjd in H.
  destruct j as [|kv j']; [congruence|]. cbn [Workflow.json_truthy negb] in H.
  rewrite Hreq in H.
  destruct q as [|kv' q']; [congruence|]. cbn [Workflow.json_truthy] in H.
  unfold ResumeUtils.iter_field at 1 in H. rewrite Hts in H.
  destruct s as [|c0 s']; [contradiction|]. cbn [Workflow.json_truthy PyStr.truthy ResumeUtils.py_iter] in H.
  destruct (ResumeUtils.iter_field "soft_skills" (Workflow.JObj (kv' :: q'))),
    (ResumeUtils.iter_field "certifications" (Workflow.JObj (kv' :: q'))),
    (ResumeUtils.iter_field "preferred_qualifications" (Workflow.JObj (kv :: j'))); try discriminate.
  injection H as <-.
  assert (HL : In (String c EmptyString) (ResumeUtils.nonblank_strs
     (List.map (fun c1 => Workflow.JStr (String c1 EmptyString)) (list_ascii_of_string (String c0 s'))
      ++ l ++ l0 ++ l1))).
  { apply ResumeUtilsFacts.nonblank_strs_in. rewrite (ResumeUtilsFacts.strip_single c Hsp).
    split; [|reflexivity]. apply in_or_app. left. apply in_map_iff. exists c. auto. }
  apply (proj2 (ResumeUtilsFacts.normalized_set_in _ _)). exists (String c EmptyString).
  rewrite (ResumeUtilsFacts.strip_single c Hsp). split; [exact HL|split; reflexivity].
Qed.

Lemma extract_jd_skills_string_field_witness :
  In "p"%string ["p"; "y"; "t"]%string.
Proof.
  apply (extract_jd_skills_string_field
           [("job_description"%string, Workflow.JObj [("requirements"%string,
              Workflow.JObj [("technical_skills"%string, Workflow.JStr "Py t")])])]
           [("requirements"%string, Workflow.JObj [("technical_skills"%string, Workflow.JStr "Py t")])]
           [("technical_skills"%string, Workflow.JStr "Py t")] "Py t" ["p"; "y"; "t"]%string "P"%char);
    first [reflexivity | discriminate | vm_compute; reflexivity | simpl; tauto].
Defined.

(** [_parse_questions_from_agent] returns at most 10 questions, each
    non-empty and already stripped. *)
Theorem parse_questions_from_agent_clean (questions_text : option string) :
  (List.length (Workflow.parse_questions_from_agent questions_text) <= 10)%nat /\
  Forall (fun q => PyStr.truthy q = true /\ PyStr.strip q = q)
    (Workflow.parse_questions_from_agent questions_text).
Proof.
  unfold Workflow.parse_questions_from_agent.
  destruct (negb (PyStr.truthy (PyStr.strip _))); [split; [simpl; lia|constructor]|].
  set (lines := PyStr.split_on "010"%char _).
  assert (Hcl : forall f, (forall l, f l = true -> PyStr.truthy (PyStr.strip l) = true) ->
            Forall (fun q => PyStr.truthy q = true /\ PyStr.strip q = q)
              (List.map PyStr.strip (List.filter f lines))).
  { intros f Hf. apply List.Forall_forall. intros q Hq.
    apply in_map_iff in Hq. destruct Hq as [l [<- Hl]]. apply filter_In in Hl.
    split; [exact (Hf l (proj2 Hl))|apply StrFacts.strip_idem]. }
  split; [apply firstn_le_length|]. apply PortalFacts.Forall_firstn.
  destruct (List.map PyStr.strip _) as [|q qs] eqn:E.
  - apply PortalFacts.Forall_firstn, Hcl. auto.
  - rewrite <- E. apply Hcl. intros l Hl. apply andb_prop in Hl. tauto.
Qed.

(** [_parse_questions_from_agent]: when some non-blank line starts with a
    digit or a dash, only such lines are kept as questions. *)
Theorem parse_questions_from_agent_numbered (t line : string) :
  In line (PyStr.split_on "010"%char (PyStr.strip t)) ->
  PyStr.truthy (PyStr.strip line) = true ->
  Workflow.starts_digit_or_dash (PyStr.strip line) = true ->
  Forall (fun q => Workflow.starts_digit_or_dash q = true)
    (Workflow.parse_questions_from_agent (Some t)).
Proof.
  intros Hin Ht Hd. unfold Workflow.parse_questions_from_agent.
  destruct (negb (PyStr.truthy (PyStr.strip t))); [constructor|].
  assert (Hall : Forall (fun q => Workflow.starts_digit_or_dash q = true)
    (List.map PyStr.strip (List.filter (fun l => PyStr.truthy (PyStr.strip l)
                                          && Workflow.starts_digit_or_dash (PyStr.strip l))
                            (PyStr.split_on "010"%char (PyStr.strip t))))).
  { apply List.Forall_forall. intros q Hq. apply in_map_iff in Hq.
    destruct Hq as [l [<- Hl]]. apply filter_In in Hl. destruct Hl as [_ Hl]. apply andb_prop in Hl. tauto. }
  destruct (List.map PyStr.strip (List.filter _ _)) as [|q qs] eqn:E.
  - exfalso. assert (Hm : In (PyStr.strip line) (List.map PyStr.strip (List.filter
        (fun l => PyStr.truthy (PyStr.strip l) && Workflow.starts_digit_or_dash (PyStr.strip l))
        (PyStr.split_on "010"%char (PyStr.strip t))))).
    { apply in_map, filter_In. rewrite Ht, Hd. auto. }
    rewrite E in Hm. exact Hm.
  - apply PortalFacts.Forall_firstn. exact Hall.
Qed.

Lemma parse_questions_from_agent_numbered_witness :
  Forall (fun q => Workflow.starts_digit_or_dash q = true)
    (Workflow.parse_questions_from_agent (Some "Here you go:
1. Why coffee?
- Favourite roast?"%string)).
Proof.
  apply (parse_questions_from_agent_numbered _ "1. Why coffee?"%string);
    [vm_compute; tauto | reflexivity | reflexivity].
Defined.

(** [employer_create_job] stores a new draft job under a key no job had,
    owned by the caller, readable at once with [employer_get_job], and
    touches no other row. A structured description is always stored
    wrapped so that it has a [job_description] key. *)
Theorem employer_create_job_new_draft (job_description_to_markdown : Workflow.json -> string)
    (st : Workflow.Store) (user_id : Z) (title : string) (description_md : option string)
    (job_description : option Workflow.json) (now : Z) :
  let '(st1, r) := Workflow.employer_create_job job_description_to_markdown st user_id title
                     description_md job_description now in
  exists k job,
    r = Workflow.Ok k /\
    Workflow.jobs st !! k = None /\
    Portal.employer_get_job st1 k user_id = Workflow.Ok job /\
    Workflow.Job.status job = Workflow.Draft /\ Workflow.Job.title job = title /\
    Workflow.Job.created_at job = now /\
    (forall k', k' <> k -> Workflow.jobs st1 !! k' = Workflow.jobs st !! k') /\
    Workflow.candidate_profiles st1 = Workflow.candidate_profiles st /\
    Workflow.job_candidates st1 = Workflow.job_candidates st /\
    Workflow.interview_sessions st1 = Workflow.interview_sessions st /\
    match job_description with
    | Some _ => exists s, Workflow.Job.description_schema job = Some s /\
                          Workflow.json_get "job_description" s <> None
    | None => Workflow.Job.description_schema job = None
    end.
Proof.
  unfold Workflow.employer_create_job.
  assert (Hget : forall j, Workflow.Job.employer_id j = user_id ->
            Portal.employer_get_job
              (Workflow.with_jobs st (<[Workflow.next_id (Workflow.jobs st) := j]> (Workflow.jobs st)))
              (Workflow.next_id (Workflow.jobs st)) user_id = Workflow.Ok j).
  { intros j Hj. unfold Portal.employer_get_job, Workflow.find_job. simpl.
    rewrite lookup_insert_eq, Hj, Z.eqb_refl. reflexivity. }
  destruct job_description as [jd|];
    [destruct (Workflow.json_get "job_description" jd) as [v|] eqn:E|];
    (eexists _, _; split; [reflexivity|]; split; [apply PortalFacts.next_id_fresh|];
     split; [apply Hget; reflexivity|]; simpl;
     do 3 (split; [reflexivity|]);
     split; [intros k' Hk; now rewrite lookup_insert_ne by congruence|];
     do 3 (split; [reflexivity|])).
  - exists jd. rewrite E. split; [reflexivity|discriminate].
  - eexists. split; [reflexivity|]. simpl. discriminate.
  - reflexivity.
Qed.

(** [interview_join]: once a join has returned a non-empty question list,
    every later join with the same token returns the same ids and
    questions, whatever the question agent would answer, and commits
    nothing. *)
Theorem interview_join_keeps_questions (st st1 : Workflow.Store) (token questions_text questions_text' : string)
    (ids : Z * Z) (qs : list string) :
  Portal.interview_join st token questions_text = (st1, Workflow.Ok (ids, qs)) ->
  qs <> [] ->
  Portal.interview_join st1 token questions_text' = (st1, Workflow.Ok (ids, qs)).
Proof.
  intros H Hne. unfold Portal.interview_join, Workflow.guard in H.
  destruct (negb (PyStr.truthy (PyStr.strip token))) eqn:Et; [discriminate|].
  destruct (Workflow.one_or_none (Workflow.sessions_with_token st token)) as [[[ik inv]|]|e] eqn:E1;
    try discriminate.
  apply Tables.one_or_none_some in E1.
  destruct (Workflow.job_candidates st !! Workflow.InterviewSession.job_candidate_id inv) as [jc|] eqn:Ejc;
    [|discriminate].
  destruct (Workflow.JobCandidate.interview_completed_at jc) eqn:Ec; [discriminate|].
  destruct (Workflow.jobs st !! Workflow.JobCandidate.job_id jc) as [j|] eqn:Ej; [|discriminate].
  destruct (Workflow.candidate_profiles st !! Workflow.JobCandidate.candidate_profile_id jc) as [cp|] eqn:Ecp;
    [|discriminate].
  assert (Hstored : forall q0 qs0, Workflow.InterviewSession.questions inv = Some (q0 :: qs0) ->
            Portal.interview_join st token questions_text'
            = (st, Workflow.Ok ((Workflow.JobCandidate.job_id jc, Workflow.InterviewSession.job_candidate_id inv),
                                firstn 10 (firstn 10 (q0 :: qs0))))).
  { intros q0 qs0 Eq. unfold Portal.interview_join, Workflow.guard.
    rewrite Et, E1, Tables.one_or_none_single, Ejc, Ec, Ej, Ecp, Eq. reflexivity. }
  destruct (Workflow.InterviewSession.questions inv) as [[|q0 qs0]|] eqn:Eq.
  2: { injection H as <- <- <-. exact (Hstored q0 qs0 eq_refl). }
  all: destruct (Workflow.parse_questions_from_agent (Some questions_text)) as [|p0 ps] eqn:Ep;
    [injection H as _ _ <-; contradiction|].
  all: injection H as <- <- <-.
  all: unfold Portal.interview_join, Workflow.guard; rewrite Et.
  all: rewrite (PortalFacts.sessions_with_token_update st token ik inv
                  (Workflow.InterviewSession.with_questions inv (p0 :: ps)) E1 eq_refl
                  (Workflow.with_sessions st (<[ik := Workflow.InterviewSession.with_questions inv (p0 :: ps)]>
                                                (Workflow.interview_sessions st))) eq_refl),
         Tables.one_or_none_single.
  all: cbn [Workflow.job_candidates Workflow.jobs Workflow.candidate_profiles Workflow.with_sessions
            Workflow.InterviewSession.with_questions Workflow.InterviewSession.job_candidate_id
            Workflow.InterviewSession.questions].
  all: rewrite Ejc, Ec, Ej, Ecp, firstn_firstn; reflexivity.
Qed.

Lemma interview_join_keeps_questions_witness :
  Portal.interview_join (fst (Portal.interview_join (fst Scenario.published) "A" "1. Why coffee?"))
    "A" "1. Something else?"
  = Portal.interview_join (fst Scenario.published) "A" "1. Why coffee?".
Proof.
  apply (interview_join_keeps_questions (fst Scenario.published)
           (fst (Portal.interview_join (fst Scenario.published) "A" "1. Why coffee?"))
           "A" "1. Why coffee?" "1. Something else?" (1, 1) ["1. Why coffee?"%string]);
    [vm_compute; reflexivity | discriminate].
Defined.

(** After a successful [interview_complete], the token is spent: a second
    completion, a join and a chat message with the same token are all
    refused with a 400 and commit nothing. *)
Theorem interview_complete_closes_session (st st1 : Workflow.Store) (token transcript : string)
    (keys : list string) (llm : nat -> option Q) (n : nat) (ended_now completed_now : Z) (r : option Q) :
  Workflow.interview_complete st token transcript keys llm n ended_now completed_now = (st1, Workflow.Ok r) ->
  (forall transcript' keys' llm' n' ended' completed',
     Workflow.interview_complete st1 token transcript' keys' llm' n' ended' completed'
     = (st1, Workflow.Err (Workflow.bad_request "Interview already completed."))) /\
  (PyStr.truthy (PyStr.strip token) = true ->
   (forall questions_text, Portal.interview_join st1 token questions_text
      = (st1, Workflow.Err (Workflow.bad_request "This interview has already been completed."))) /\
   (forall transcript_so_far candidate_message reply,
      Portal.interview_chat st1 token transcript_so_far candidate_message reply
      = (st1, Workflow.Err (Workflow.bad_request "Interview already completed.")))).
Proof.
  intro H. unfold Workflow.interview_complete, Workflow.guard in H.
  destruct (Workflow.one_or_none (Workflow.sessions_with_token st token)) as [[[ik inv]|]|e] eqn:E1;
    try discriminate.
  apply Tables.one_or_none_some in E1.
  destruct (Workflow.job_candidates st !! Workflow.InterviewSession.job_candidate_id inv) as [jc|] eqn:Ejc;
    [|discriminate].
  destruct (Workflow.JobCandidate.interview_completed_at jc) eqn:Ec; [discriminate|].
  destruct (Workflow.jobs st !! Workflow.JobCandidate.job_id jc) as [j|] eqn:Ej;
    [|discriminate].
  destruct (Workflow.candidate_profiles st !! Workflow.JobCandidate.candidate_profile_id jc) as [cp|] eqn:Ecp;
    [|discriminate].
  injection H as <- _.
  set (inv1 := Workflow.InterviewSession.with_completion inv _ ended_now _).
  set (jc1 := Workflow.JobCandidate.with_completion jc _ completed_now).
  set (st2 := Workflow.with_job_candidates _ _).
  assert (Hs : Workflow.sessions_with_token st2 token = [(ik, inv1)]).
  { apply (PortalFacts.sessions_with_token_update st token ik inv inv1 E1 eq_refl st2). reflexivity. }
  assert (Hj : Workflow.job_candidates st2 !! Workflow.InterviewSession.job_candidate_id inv1 = Some jc1).
  { unfold st2. cbn [Workflow.job_candidates Workflow.with_job_candidates]. apply lookup_insert_eq. }
  assert (Hc : exists at_, Workflow.JobCandidate.interview_completed_at jc1 = Some at_)
    by (eexists; reflexivity).
  destruct Hc as [at_ Hc].
  split; [|intro Ht; split].
  - intros. unfold Workflow.interview_complete, Workflow.guard.
    rewrite Hs, Tables.one_or_none_single, Hj, Hc. reflexivity.
  - intros. unfold Portal.interview_join, Workflow.guard.
    rewrite Ht. simpl negb. cbv iota.
    rewrite Hs, Tables.one_or_none_single, Hj, Hc. reflexivity.
  - intros. unfold Portal.interview_chat, Workflow.guard.
    rewrite Ht. simpl negb. cbv iota.
    rewrite Hs, Tables.one_or_none_single, Hj, Hc. reflexivity.
Qed.

Lemma interview_complete_closes_session_witness :
  Portal.interview_join (fst (Scenario.complete_with (fst Scenario.published) "A" "Candidate: hi" 90)) "A" EmptyString
  = (fst (Scenario.complete_with (fst Scenario.published) "A" "Candidate: hi" 90),
     Workflow.Err (Workflow.bad_request "This interview has already been completed.")).
Proof.
  exact (proj1 (proj2 (interview_complete_closes_session (fst Scenario.published)
           (fst (Scenario.complete_with (fst Scenario.published) "A" "Candidate: hi" 90))
           "A" "Candidate: hi" Scenario.keys (fun _ => Some 90%Q) 0 5 6 (Some 90%Q)
           ltac:(vm_compute; reflexivity)) ltac:(reflexivity)) EmptyString).
Defined.

(** [employer_update_job] only edits drafts: once [employer_publish_job]
    has succeeded, every update of that job by its owner is refused with
    a 400 and commits nothing. *)
Theorem employer_update_job_after_publish
    (token_urlsafe : Z -> string) (job_description_to_markdown : Workflow.json -> string)
    (json_dumps : Workflow.json -> string) (st st1 : Workflow.Store) (job_id user_id : Z)
    (keys : list string) (llm_jd : nat -> option (list (string * Workflow.json)))
    (llm_rank : nat -> option Ranker.RankingOutput) (n : nat) :
  Workflow.employer_publish_job token_urlsafe job_description_to_markdown json_dumps st job_id user_id
    keys llm_jd llm_rank n = (st1, Workflow.Ok tt) ->
  forall title description_md job_description,
    Portal.employer_update_job job_description_to_markdown st1 job_id user_id title description_md
      job_description
    = (st1, Workflow.Err (Workflow.bad_request "Only draft jobs can be edited.")).
Proof.
  intros H t d jd. destruct (PortalFacts.publish_ok_find _ _ _ _ _ _ _ _ _ _ _ H) as [job [Hf Hs]].
  unfold Portal.employer_update_job. rewrite Hf, Hs. reflexivity.
Qed.

Lemma employer_update_job_after_publish_witness :
  Portal.employer_update_job Scenario.job_description_to_markdown (fst Scenario.published) 1 100
    (Some "Senior Barista"%string) None None
  = (fst Scenario.published, Workflow.Err (Workflow.bad_request "Only draft jobs can be edited.")).
Proof.
  apply (employer_update_job_after_publish Scenario.token_urlsafe Scenario.job_description_to_markdown
           Scenario.json_dumps (fst Scenario.created) (fst Scenario.published) 1 100 Scenario.keys
           (fun _ => None) (fun _ => Some (Scenario.ranking [1; 2; 3; 4; 5])) 0).
  vm_compute. reflexivity.
Defined.

(** After a successful [employer_finalize_job] the job is closed for its
    owner: updating it and reinviting candidates are both refused with a
    400 and commit nothing. *)
Theorem employer_finalize_job_locks (job_description_to_markdown : Workflow.json -> string)
    (st st1 : Workflow.Store) (job_id user_id : Z) (names : list string) :
  Workflow.employer_finalize_job st job_id user_id = (st1, Workflow.Ok names) ->
  Portal.employer_reinvite_candidates st1 job_id user_id
  = (st1, Workflow.Err (Workflow.bad_request "Only published jobs can reinvite candidates.")) /\
  (forall title description_md job_description,
     Portal.employer_update_job job_description_to_markdown st1 job_id user_id title description_md
       job_description
     = (st1, Workflow.Err (Workflow.bad_request "Only draft jobs can be edited."))).
Proof.
  intro H. destruct (FinalizeFacts.finalize_ok _ _ _ _ _ H) as [job [Hj [_ [_ ->]]]].
  pose proof (FinalizeFacts.find_job_with_status st
                (Workflow.with_job_candidates st
                   (Workflow.mark_selected job_id
                      (List.map Workflow.fe_profile_id (Workflow.top_3 (Workflow.finalize_payload st job_id)))
                      (Workflow.job_candidates st)))
                job_id user_id job Workflow.Closed Hj) as Hf.
  split.
  - unfold Portal.employer_reinvite_candidates. rewrite Hf. reflexivity.
  - intros t d jd. unfold Portal.employer_update_job. rewrite Hf. reflexivity.
Qed.

Lemma employer_finalize_job_locks_witness :
  Portal.employer_reinvite_candidates (fst Scenario.finalized) 1 100
  = (fst Scenario.finalized,
     Workflow.Err (Workflow.bad_request "Only published jobs can reinvite candidates.")).
Proof.
  exact (proj1 (employer_finalize_job_locks Scenario.job_description_to_markdown Scenario.interviewed
                  (fst Scenario.finalized) 1 100 ["Candidate"; "Candidate"; "Candidate"]%string ltac:(vm_compute; reflexivity))).
Defined.

(** [employer_update_job] on a draft of the caller: the edited row is
    stored under the same key and returned; it stays a draft of the same
    owner with its creation time, takes the new title if one is given, and
    either takes the structured description (wrapped under
    [job_description] if needed) with its rendered markdown, or else the
    new markdown, if any. *)
Theorem employer_update_job_draft (job_description_to_markdown : Workflow.json -> string)
    (st : Workflow.Store) (job_id user_id : Z) (row : Workflow.Job.t) (title description_md : option string)
    (job_description : option Workflow.json) :
  Workflow.find_job st job_id user_id = Some row ->
  Workflow.Job.status row = Workflow.Draft ->
  exists row2,
    Portal.employer_update_job job_description_to_markdown st job_id user_id title description_md
      job_description
    = (Workflow.with_jobs st (<[job_id := row2]> (Workflow.jobs st)), Workflow.Ok row2) /\
    Workflow.Job.status row2 = Workflow.Draft /\
    Workflow.Job.employer_id row2 = user_id /\
    Workflow.Job.created_at row2 = Workflow.Job.created_at row /\
    Workflow.Job.title row2 = match title with Some t => t | None => Workflow.Job.title row end /\
    match job_description with
    | Some _ => exists s, Workflow.Job.description_schema row2 = Some s /\
                          Workflow.json_get "job_description" s <> None /\
                          Workflow.Job.description_md row2 = Some (job_description_to_markdown s)
    | None => Workflow.Job.description_schema row2 = Workflow.Job.description_schema row /\
              Workflow.Job.description_md row2
              = match description_md with Some m => Some m | None => Workflow.Job.description_md row end
    end.
Proof.
  intros Hf Hd. pose proof (PortalFacts.find_job_some _ _ _ _ Hf) as [_ Hu].
  unfold Portal.employer_update_job. rewrite Hf, Hd.
  eexists. split; [reflexivity|].
  destruct title as [t|], job_description as [jd|];
    [destruct (Workflow.json_get "job_description" jd) as [v|] eqn:E| |
     destruct (Workflow.json_get "job_description" jd) as [v|] eqn:E|];
    try destruct description_md; simpl; (split; [assumption|]); (split; [assumption|]);
    (split; [reflexivity|]); (split; [reflexivity|]); auto.
  all: eexists; (split; [reflexivity|]); split; [|reflexivity].
  all: first [rewrite E; discriminate | simpl; discriminate].
Qed.

Lemma employer_update_job_draft_witness :
  exists row2,
    Portal.employer_update_job Scenario.job_description_to_markdown (fst Scenario.created) 1 100
      (Some "Head Barista"%string) None (Some (Workflow.JObj [("title"%string, Workflow.JStr "Barista")]))
    = (Workflow.with_jobs (fst Scenario.created) (<[1 := row2]> (Workflow.jobs (fst Scenario.created))),
       Workflow.Ok row2) /\
    Workflow.Job.status row2 = Workflow.Draft /\
    Workflow.Job.employer_id row2 = 100 /\
    Workflow.Job.created_at row2 = 0 /\
    Workflow.Job.title row2 = "Head Barista"%string /\
    (exists s, Workflow.Job.description_schema row2 = Some s /\
               Workflow.json_get "job_description" s <> None /\
               Workflow.Job.description_md row2 = Some (Scenario.job_description_to_markdown s)).
Proof.
  exact (employer_update_job_draft Scenario.job_description_to_markdown (fst Scenario.created) 1 100
           (Workflow.Job.mk 100 "Barista" (Some "# Barista"%string) (Some Scenario.jd) Workflow.Draft 0)
           (Some "Head Barista"%string) None (Some (Workflow.JObj [("title"%string, Workflow.JStr "Barista")]))
           ltac:(vm_compute; reflexivity) eq_refl).
Defined.

(** [employer_reinvite_candidates] on a published job of the caller
    commits nothing and mails exactly the non-empty e-mail addresses of
    the profiles of the job's candidates. *)
Theorem employer_reinvite_candidates_emails (st : Workflow.Store) (job_id user_id : Z)
    (job : Workflow.Job.t) (e : string) :
  Workflow.find_job st job_id user_id = Some job ->
  Workflow.Job.status job = Workflow.Published ->
  exists emails,
    Portal.employer_reinvite_candidates st job_id user_id = (st, Workflow.Ok emails) /\
    (In e emails <->
     exists jck jc cp,
       Workflow.job_candidates st !! jck = Some jc /\ Workflow.JobCandidate.job_id jc = job_id /\
       Workflow.candidate_profiles st !! Workflow.JobCandidate.candidate_profile_id jc = Some cp /\
       Workflow.CandidateProfile.email cp = Some e /\ PyStr.truthy e = true).
Proof.
  intros Hf Hs. unfold Portal.employer_reinvite_candidates. rewrite Hf, Hs.
  eexists. split; [reflexivity|]. rewrite in_flat_map. split.
  - intros [[jck jc] [Hin He]]. apply PortalFacts.select_in in Hin. destruct Hin as [Hjc Hid].
    cbv beta iota in He.
    destruct (Workflow.candidate_profiles st !! Workflow.JobCandidate.candidate_profile_id jc) as [cp|] eqn:Ecp;
      [|contradiction].
    destruct (Workflow.CandidateProfile.email cp) as [e'|] eqn:Ee; [|contradiction].
    destruct (PyStr.truthy e') eqn:Et; [|contradiction].
    destruct He as [<-|[]]. exists jck, jc, cp. apply Z.eqb_eq in Hid. auto.
  - intros [jck [jc [cp [Hjc [Hid [Hcp [He Ht]]]]]]]. exists (jck, jc). split.
    + apply PortalFacts.select_in. split; [exact Hjc|]. now apply Z.eqb_eq.
    + cbv beta iota. rewrite Hcp, He, Ht. now left.
Qed.

Lemma employer_reinvite_candidates_emails_witness :
  exists emails,
    Portal.employer_reinvite_candidates (fst Scenario.published) 1 100
    = (fst Scenario.published, Workflow.Ok emails) /\
    (In "a@x.io"%string emails <->
     exists jck jc cp,
       Workflow.job_candidates (fst Scenario.published) !! jck = Some jc /\
       Workflow.JobCandidate.job_id jc = 1 /\
       Workflow.candidate_profiles (fst Scenario.published) !! Workflow.JobCandidate.candidate_profile_id jc
         = Some cp /\
       Workflow.CandidateProfile.email cp = Some "a@x.io"%string /\ PyStr.truthy "a@x.io" = true).
Proof.
  apply (employer_reinvite_candidates_emails (fst Scenario.published) 1 100
           (Workflow.Job.with_status (Workflow.Job.mk 100 "Barista" (Some "# Barista"%string)
              (Some Scenario.jd) Workflow.Draft 0) Workflow.Published) "a@x.io");
    [vm_compute; reflexivity | reflexivity].
Defined.

(** [candidate_respond_to_interview] takes the interview out of the
    candidate's open list: after a successful response, no open entry of
    [candidate_list_interviews] names that job candidate. *)
Theorem respond_leaves_open_list (st st1 : Workflow.Store) (job_candidate_id user_id : Z)
    (interested : bool) (questions_text : string) (opn : list Portal.Item)
    (hist : list (Portal.Item * string)) :
  Workflow.candidate_respond_to_interview st job_candidate_id user_id interested questions_text
  = (st1, Workflow.Ok tt) ->
  Portal.candidate_list_interviews st1 user_id = Workflow.Ok (opn, hist) ->
  Forall (fun it => Portal.item_job_candidate_id it <> job_candidate_id) opn.
Proof.
  intros H Hl. destruct (WorkflowFacts.respond_ok_store _ _ _ _ _ _ H)
    as [pk [p [jc [_ [_ [_ [_ [Hjcs _]]]]]]]].
  unfold Portal.candidate_list_interviews in Hl.
  destruct (Workflow.one_or_none _) as [[[pk' p']|]|e]; try discriminate.
  - injection Hl as <- _. apply List.Forall_forall. intros it Hit.
    apply in_map_iff in Hit. destruct Hit as [[[jck jc'] inv] [<- Hin]].
    apply filter_In in Hin. destruct Hin as [Hin Hnone]. simpl.
    apply PortalFacts.candidate_rows_in in Hin. destruct Hin as [Hjc _].
    intros ->. rewrite Hjcs, lookup_insert_eq in Hjc. injection Hjc as <-.
    discriminate Hnone.
  - injection Hl as <- _. constructor.
Qed.

Lemma respond_leaves_open_list_witness :
  Forall (fun it => Portal.item_job_candidate_id it <> 1)
    (fst (match Portal.candidate_list_interviews
                  (fst (Workflow.candidate_respond_to_interview (fst Scenario.published) 1 11 true "1. Q?")) 11
          with Workflow.Ok r => r | Workflow.Err _ => ([], []) end)).
Proof.
  apply (respond_leaves_open_list (fst Scenario.published)
           (fst (Workflow.candidate_respond_to_interview (fst Scenario.published) 1 11 true "1. Q?"))
           1 11 true "1. Q?" _
           (snd (match Portal.candidate_list_interviews
                  (fst (Workflow.candidate_respond_to_interview (fst Scenario.published) 1 11 true "1. Q?")) 11
                 with Workflow.Ok r => r | Workflow.Err _ => ([], []) end)));
    vm_compute; reflexivity.
Defined.

(** [interview_chat] never commits: whatever its inputs, the store it
    returns is the one it was given. Once the conversation has started (a
    non-blank transcript), a blank candidate message is refused without a
    model call. *)
Theorem interview_chat_message_required (st : Workflow.Store) (token transcript_so_far : string)
    (candidate_message : option string) (reply : string -> option string) :
  fst (Portal.interview_chat st token transcript_so_far candidate_message reply) = st /\
  (PyStr.truthy (PyStr.strip transcript_so_far) = true ->
   PyStr.truthy (PyStr.strip (match candidate_message with Some m => m | None => EmptyString end)) = false ->
   exists e, Portal.interview_chat st token transcript_so_far candidate_message reply = (st, Workflow.Err e)).
Proof.
  split.
  - unfold Portal.interview_chat, Workflow.guard.
    repeat match goal with
           | |- context [match ?x with _ => _ end] => destruct x
           end; reflexivity.
  - intros Ht Hm.
    assert (Hc : Portal.chat_user_content transcript_so_far candidate_message = None).
    { unfold Portal.chat_user_content. cbv zeta. rewrite Hm, Ht. reflexivity. }
    unfold Portal.interview_chat, Workflow.guard. rewrite Hc.
    repeat match goal with
           | |- context [match ?x with _ => _ end] => destruct x
           end; eauto.
Qed.

Lemma interview_chat_message_required_witness :
  fst (Portal.interview_chat (fst Scenario.published) "A" (String "028"%char EmptyString) None
         (fun _ => Some "Hello! Why coffee?"%string)) = fst Scenario.published /\
  snd (Portal.interview_chat (fst Scenario.published) "A" (String "028"%char EmptyString) None
         (fun _ => Some "Hello! Why coffee?"%string)) = Workflow.Ok "Hello! Why coffee?"%string /\
  exists e, Portal.interview_chat (fst Scenario.published) "A" "Interviewer: Hello!" (Some "   "%string)
              (fun _ => Some "Next question?"%string)
            = (fst Scenario.published, Workflow.Err e).
Proof.
  split; [exact (proj1 (interview_chat_message_required (fst Scenario.published) "A"
                         (String "028"%char EmptyString) None
                         (fun _ => Some "Hello! Why coffee?"%string)))|].
  split; [vm_compute; reflexivity|].
  exact (proj2 (interview_chat_message_required (fst Scenario.published) "A" "Interviewer: Hello!"
                  (Some "   "%string) (fun _ => Some "Next question?"%string)) eq_refl eq_refl).
Defined.
